(** * News_App: the headline pipeline of [app.py]

    A shallow embedding of [src/app.py]: the timestamp parser, the image
    mirror ([download_image]), the headline fetcher ([fetch_headlines]), the
    article enricher ([enrich_article_with_newspaper]) and the two routes
    ([index], [article]) working on the process-wide cache.

    Python values are an inductive type, dictionaries are finite maps,
    exceptions are an explicit result type, and every effect of the program
    (outbound requests, file writes, log records) goes through a state and
    exception monad over an explicit world.  What the outside world answers
    (the provider, the web, the disk, the [datetime] and [newspaper]
    libraries) is a parameter of the development. *)

From Stdlib Require Import Ascii String.
From stdpp Require Import gmap strings list fin_maps pretty.

Set Warnings "-register-all".
Set Default Proof Using "Type".

Local Open Scope Z_scope.

(** ** Python values *)

(** What [datetime.fromisoformat] and [datetime.strptime] build. The offset
    is in seconds east of UTC; [None] is a naive datetime. *)
Record datetime := Datetime {
  dt_year : Z; dt_month : Z; dt_day : Z;
  dt_hour : Z; dt_minute : Z; dt_second : Z; dt_microsecond : Z;
  dt_utcoffset : option Z
}.

(** The values the program handles: what [json] decoding yields (numbers are
    restricted to integers), plus [datetime] objects. *)
Inductive value :=
| VNone
| VBool (b : bool)
| VInt (z : Z)
| VStr (s : string)
| VList (l : list value)
| VDict (m : gmap string value)
| VDatetime (d : datetime).

(** An article record is a [dict] with string keys. *)
Abbreviation record := (gmap string value).

(** Python truthiness: [bool(v)]. *)
Definition truthy (v : value) : bool :=
  match v with
  | VNone => false
  | VBool b => b
  | VInt z => negb (z =? 0)
  | VStr s => negb (String.eqb s "")
  | VList l => negb (Nat.eqb (length l) 0)
  | VDict m => negb (Nat.eqb (size m) 0)
  | VDatetime _ => true
  end.

(** [a or b] *)
Definition py_or (a b : value) : value := if truthy a then a else b.

(** [v == n] for an [int] n ([True == 1] and [False == 0] hold in Python). *)
Definition py_eq_int (v : value) (n : Z) : bool :=
  match v with
  | VInt z => z =? n
  | VBool b => (if b then 1 else 0) =? n
  | _ => false
  end.

(** [v == s] for a [str] s. *)
Definition py_eq_str (v : value) (s : string) : bool :=
  match v with
  | VStr t => String.eqb t s
  | _ => false
  end.

(** ** Strings *)

(** [s.replace(old, new)] for a one-character [old]. *)
Fixpoint str_replace (old : ascii) (new : string) (s : string) : string :=
  match s with
  | EmptyString => EmptyString
  | String c s' =>
      if Ascii.eqb c old then new +:+ str_replace old new s'
      else String c (str_replace old new s')
  end.

(** [s.split(sep)] for a one-character [sep]; the result is never empty. *)
Fixpoint str_split (sep : ascii) (s : string) : list string :=
  match s with
  | EmptyString => [EmptyString]
  | String c s' =>
      if Ascii.eqb c sep then EmptyString :: str_split sep s'
      else match str_split sep s' with
           | [] => [String c EmptyString]
           | w :: ws => String c w :: ws
           end
  end.

(** [l[-1]] and [l[0]] on the result of a split. *)
Definition last_segment (l : list string) : string := List.last l EmptyString.
Definition first_segment (l : list string) : string := List.hd EmptyString l.

Definition ascii_lower (c : ascii) : ascii :=
  let n := nat_of_ascii c in
  if (Nat.leb 65 n && Nat.leb n 90)%bool then ascii_of_nat (n + 32) else c.

(** [s.lower()] on the ASCII letters: no other character lowers to one of the
    letters of the whitelisted extensions. *)
Fixpoint str_lower (s : string) : string :=
  match s with
  | EmptyString => EmptyString
  | String c s' => String (ascii_lower c) (str_lower s')
  end.

(** ** Exceptions and results *)

Inductive exn :=
| AttributeError
| TypeError
| KeyError
| ValueError
| RequestException
| HTTPError
| JSONDecodeError
| OSError
| ArticleException
| NotFound.

Inductive res (A : Type) :=
| Ret (a : A)
| Exc (e : exn).
Arguments Ret {A} a.
Arguments Exc {A} e.

(** ** The world *)

(** [requests.get(url, params=..., timeout=..., headers=...)] *)
Record request := Request {
  req_url : string;
  req_params : list (string * value);
  req_timeout : Z;
  req_headers : list (string * string)
}.

(** [resp_json] is what [resp.json()] returns, [None] when it raises. *)
Record response := Response {
  status_code : Z;
  resp_content : string;
  resp_text : string;
  resp_json : option value
}.

Inductive level := INFO | WARNING | ERROR.

(** What the program does to the outside: the trace holds the most recent
    event first. *)
Inductive event :=
| EvGet (r : request)
| EvWrite (path : string)
| EvLog (lvl : level) (msg : string).

(** [open(path, "wb")] followed by [f.write(content)]: it succeeds, or [open]
    raises and nothing is created, or [write] raises and leaves a file with
    some partial content. *)
Inductive write_outcome :=
| WriteOk
| OpenFails
| WriteFails (partial : string).

(** The files on disk (path to content) and the trace of effects. *)
Record world := World {
  files : gmap string string;
  trace : list event
}.

(** What the outside answers. The network and the disk may answer
    differently each time: they see the trace so far. Each library call is
    [None] where the library raises. *)
Record extern := Extern {
  http_get : list event → request → option response;
  fs_write : list event → string → string → write_outcome;
  newspaper_parse : string → string → option string;
  fromisoformat : string → option datetime;
  strptime : string → string → option datetime
}.

(** The module-level configuration, read once from the environment. *)
Record config := Config {
  NEWSAPI_KEY : option string;
  NEWSAPI_ENDPOINT : string;
  COUNTRY : string;
  PAGE_SIZE : Z;
  REQUEST_TIMEOUT : Z
}.

(** ** The monad: state over the world, with exceptions *)

Definition M (A : Type) : Type := world → res A * world.

Definition ret {A} (a : A) : M A := λ w, (Ret a, w).

Definition raise {A} (e : exn) : M A := λ w, (Exc e, w).

Definition bind {A B} (k : A → M B) (m : M A) : M B :=
  λ w, match m w with
       | (Ret a, w') => k a w'
       | (Exc e, w') => (Exc e, w')
       end.

(** stdpp's monad notations: [x ← m; k] and [m;; k]. *)
#[global] Instance M_ret : MRet M := @ret.
#[global] Instance M_bind : MBind M := @bind.

(** [try: m except Exception as e: h e]. The effects of [m] up to the
    exception stay. *)
Definition try_except {A} (m : M A) (h : exn → M A) : M A :=
  λ w, match m w with
       | (Ret a, w') => (Ret a, w')
       | (Exc e, w') => h e w'
       end.

Definition emit (e : event) : M unit :=
  λ w, (Ret tt, World (files w) (e :: trace w)).

Definition log (lvl : level) (msg : string) : M unit := emit (EvLog lvl msg).

(** [os.path.exists(path)] *)
Definition os_path_exists (path : string) : M bool :=
  λ w, (Ret (bool_decide (is_Some (files w !! path))), w).

(** ** Dictionary and iteration primitives *)

(** [v.get(k, default)]: only a [dict] has [get]. *)
Definition py_get (v : value) (k : string) (dflt : value) : M value :=
  match v with
  | VDict m => ret (default dflt (m !! k))
  | _ => raise AttributeError
  end.

(** [d.get(k)] on an article record. *)
Definition dict_get (d : record) (k : string) : value := default VNone (d !! k).

Fixpoint chars (s : string) : list value :=
  match s with
  | EmptyString => []
  | String c s' => VStr (String c EmptyString) :: chars s'
  end.

(** What [for a in v] goes through; [TypeError] when [v] is not iterable. *)
Definition py_iter (v : value) : M (list value) :=
  match v with
  | VList l => ret l
  | VStr s => ret (chars s)
  | VDict m => ret (VStr <$> (map_to_list m).*1)
  | _ => raise TypeError
  end.

(** ** The application *)

Definition LOCAL_IMG_FOLDER : string := "static/images/news".

Definition PLACEHOLDER_IMAGE : string := "/static/images/placeholder.jpg".

(** [os.path.join(folder, name)] on a POSIX system, for a relative [name]. *)
Definition os_path_join (folder name : string) : string :=
  folder +:+ "/" +:+ name.

Definition image_extensions : list string := ["jpg"; "jpeg"; "png"; "webp"].

(** The extension [download_image] derives from a URL:
    [url.split(".")[-1].split("?")[0]], forced to [jpg] outside the list. *)
Definition derive_ext (url : string) : string :=
  let ext := first_segment (str_split "?" (last_segment (str_split "." url))) in
  if bool_decide (str_lower ext ∈ image_extensions) then ext else "jpg".

(** [os.path.join(LOCAL_IMG_FOLDER, f"{article_id}.{ext}")] *)
Definition local_filename (url : string) (article_id : Z) : string :=
  os_path_join LOCAL_IMG_FOLDER (pretty article_id +:+ "." +:+ derive_ext url).

Definition backslash : ascii := "092"%char.

(** The path handed to the templates: ["/"] followed by the file name with
    every backslash turned into a slash. *)
Definition served_path (filename : string) : string :=
  "/" +:+ str_replace backslash "/" filename.

(** The record [fetch_headlines] makes up when it has nothing else. *)
Definition placeholder_article : record :=
  <["id" := VInt 1]> (
  <["title" := VStr "No articles available right now"]> (
  <["description" := VStr "Please check back later."]> (
  <["content" := VStr ""]> (
  <["source_name" := VStr ""]> (
  <["source_url" := VStr "#"]> (
  <["image_url" := VStr PLACEHOLDER_IMAGE]> (
  <["published_at" := VNone]> (
  <["full_text" := VStr ""]> ∅)))))))).

(** A 4xx or 5xx status, on which [resp.raise_for_status()] raises. *)
Definition http_error (resp : response) : bool :=
  (400 <=? status_code resp) && (status_code resp <? 600).

Section App.
Context (cfg : config) (ext : extern).

(** [requests.get]: the call is recorded, the outside answers. *)
Definition requests_get (r : request) : M response :=
  λ w, let w' := World (files w) (EvGet r :: trace w) in
       match http_get ext (trace w) r with
       | Some resp => (Ret resp, w')
       | None => (Exc RequestException, w')
       end.

(** [with open(path, "wb") as f: f.write(content)] *)
Definition write_file (path content : string) : M unit :=
  λ w, let t := EvWrite path :: trace w in
       match fs_write ext (trace w) path content with
       | WriteOk => (Ret tt, World (<[path := content]> (files w)) t)
       | OpenFails => (Exc OSError, World (files w) t)
       | WriteFails partial => (Exc OSError, World (<[path := partial]> (files w)) t)
       end.

(** [val.replace("Z", "+00:00")]: only a [str] has [replace]. *)
Definition replace_Z (val : value) : M string :=
  match val with
  | VStr s => ret (str_replace "Z" "+00:00" s)
  | _ => raise AttributeError
  end.

Definition datetime_fromisoformat (s : string) : M value :=
  match fromisoformat ext s with
  | Some d => ret (VDatetime d)
  | None => raise ValueError
  end.

Definition datetime_strptime (val : value) (fmt : string) : M value :=
  match val with
  | VStr s =>
      match strptime ext s fmt with
      | Some d => ret (VDatetime d)
      | None => raise ValueError
      end
  | _ => raise TypeError
  end.

Definition parse_datetime (val : value) : M value :=
  if negb (truthy val) then ret VNone
  else
    try_except (s ← replace_Z val; datetime_fromisoformat s)
      (λ _, try_except (datetime_strptime val "%Y-%m-%dT%H:%M:%S")
              (λ _, ret VNone)).

(** The [try] block returns the served path ([Some]) or falls through to
    the final [return PLACEHOLDER_IMAGE] ([None]). *)
Definition download_image (url : value) (article_id : Z) : M value :=
  if negb (truthy url) then ret (VStr PLACEHOLDER_IMAGE)
  else
    match url with
    | VStr u =>
        let filename := local_filename u article_id in
        found ← os_path_exists filename;
        if (found : bool) then ret (VStr (served_path filename))
        else
          r ← try_except
                (resp ← requests_get (Request u [] 5 []);
                 if status_code resp =? 200
                 then write_file filename (resp_content resp);;
                      ret (Some (served_path filename))
                 else ret None)
                (λ _, log INFO "Failed to download image: %s";; ret None);
          match r with
          | Some path => ret (VStr path)
          | None => ret (VStr PLACEHOLDER_IMAGE)
          end
    | _ => raise AttributeError
    end.

Definition api_key : value := from_option VStr VNone (NEWSAPI_KEY cfg).

(** [resp.raise_for_status()] *)
Definition raise_for_status (resp : response) : M unit :=
  if http_error resp then raise HTTPError else ret tt.

(** [resp.json()] *)
Definition response_json (resp : response) : M value :=
  match resp_json resp with
  | Some v => ret v
  | None => raise JSONDecodeError
  end.

(** The body of the loop of [fetch_headlines] up to [out.append]. *)
Definition build_article (i : Z) (a : value) : M record :=
  title ← py_get a "title" VNone;
  description ← py_get a "description" VNone;
  content ← py_get a "content" VNone;
  source ← py_get a "source" (VDict ∅);
  source_name ← py_get source "name" VNone;
  url ← py_get a "url" VNone;
  published ← py_get a "publishedAt" VNone;
  published_at ← parse_datetime published;
  let article : record :=
    <["id" := VInt i]> (
    <["title" := py_or title (VStr "No title")]> (
    <["description" := py_or description (VStr "")]> (
    <["content" := py_or content (VStr "")]> (
    <["source_name" := py_or source_name (VStr "")]> (
    <["source_url" := py_or url (VStr "#")]> (
    <["published_at" := published_at]> (
    <["full_text" := VNone]> ∅))))))) in
  url_to_image ← py_get a "urlToImage" VNone;
  image_url ← (if truthy url_to_image then download_image url_to_image i
               else ret (VStr PLACEHOLDER_IMAGE));
  ret (<["image_url" := image_url]> article).

(** [for i, a in enumerate(articles_list, start=1)], from index [i] on. *)
Fixpoint fetch_loop (page_size i : Z) (items : list value) (out : list record)
    : M (list record) :=
  match items with
  | [] => ret out
  | a :: rest =>
      article ← build_article i a;
      let out' := out ++ [article] in
      if Z.of_nat (length out') >=? page_size then ret out'
      else fetch_loop page_size (i + 1) rest out'
  end.

Definition fetch_headlines (country : string) (page_size : Z) : M (list record) :=
  if negb (truthy api_key)
  then log WARNING "NEWSAPI_KEY not set in .env";; ret []
  else
    let params := [("apiKey", api_key); ("country", VStr country);
                   ("pageSize", VInt (page_size * 2))] in
    data ← try_except
             (resp ← requests_get
                       (Request (NEWSAPI_ENDPOINT cfg) params (REQUEST_TIMEOUT cfg) []);
              raise_for_status resp;;
              response_json resp)
             (λ _, log ERROR "Failed to fetch headlines: %s";; ret (VDict ∅));
    articles_list ← py_get data "articles" (VList []);
    items ← py_iter articles_list;
    out ← fetch_loop page_size 1 items [];
    if negb (truthy (VList (VDict <$> out))) then ret [placeholder_article]
    else ret out.

(** [requests.get(url, ...)] for a [url] taken from a record: anything but
    a [str] is refused by the library before any connection. *)
Definition requests_get_url (url : value) (timeout : Z)
    (headers : list (string * string)) : M response :=
  match url with
  | VStr u => requests_get (Request u [] timeout headers)
  | _ => raise RequestException
  end.

(** [Article(url, language="en")], [set_html], [parse], then [art.text]. *)
Definition newspaper_text (url : value) (html : string) : M string :=
  match url with
  | VStr u =>
      match newspaper_parse ext u html with
      | Some text => ret text
      | None => raise ArticleException
      end
  | _ => raise ArticleException
  end.

(** The source mutates the [dict] it is given and returns nothing; here the
    record after the call is the result, and the caller stores it where the
    [dict] lives. *)
Definition enrich_article_with_newspaper (article : record) : M record :=
  let url := dict_get article "source_url" in
  if negb (truthy url) || py_eq_str url "#" then ret article
  else
    r ← try_except
          (resp ← requests_get_url url (REQUEST_TIMEOUT cfg)
                    [("User-Agent", "Mozilla/5.0")];
           if negb (status_code resp =? 200) then ret None
           else ret (Some resp))
          (λ _, ret None);
    match r with
    | None => ret article
    | Some resp =>
        t ← try_except (text ← newspaper_text url (resp_text resp); ret (Some text))
              (λ _, ret None);
        match t with
        | None => ret article
        | Some text =>
            ret (<["full_text" :=
                     py_or (VStr text)
                       (py_or (dict_get article "content")
                              (dict_get article "description"))]> article)
        end
    end.

(** *** The cache and the routes *)

(** The global [cached_articles] and the world. *)
Record app_state := AppState {
  cached_articles : list record;
  app_world : world
}.

(** What [render_template] is given. *)
Inductive page :=
| IndexPage (articles : list record)
| ArticlePage (a : record).

Definition index (s : app_state) : res page * app_state :=
  if negb (truthy (VList (VDict <$> cached_articles s)))
  then
    match fetch_headlines (COUNTRY cfg) (PAGE_SIZE cfg) (app_world s) with
    | (Ret out, w) => (Ret (IndexPage out), AppState out w)
    | (Exc e, w) => (Exc e, AppState (cached_articles s) w)
    end
  else (Ret (IndexPage (cached_articles s)), s).

(** [next((x for x in cached_articles if x["id"] == article_id), None)],
    with the position of the record found: the route works on that very
    [dict] of the cache. *)
Fixpoint find_article (k : nat) (l : list record) (article_id : Z)
    : res (option (nat * record)) :=
  match l with
  | [] => Ret None
  | x :: rest =>
      match x !! "id" with
      | None => Exc KeyError
      | Some v =>
          if py_eq_int v article_id then Ret (Some (k, x))
          else find_article (S k) rest article_id
      end
  end.

(** [abort(404)] raises [NotFound]. *)
Definition article (article_id : Z) (s : app_state) : res page * app_state :=
  match find_article 0 (cached_articles s) article_id with
  | Exc e => (Exc e, s)
  | Ret None => (Exc NotFound, s)
  | Ret (Some (k, art)) =>
      if negb (truthy (VDict art)) then (Exc NotFound, s)
      else if negb (truthy (dict_get art "full_text"))
      then
        match enrich_article_with_newspaper art (app_world s) with
        | (Ret art', w) =>
            (Ret (ArticlePage art'), AppState (<[k := art']> (cached_articles s)) w)
        | (Exc e, w) => (Exc e, AppState (cached_articles s) w)
        end
      else (Ret (ArticlePage art), s)
  end.

(** The requests the application serves, one after the other. *)
Inductive http_request :=
| GetIndex
| GetArticle (article_id : Z).

Definition handle (r : http_request) (s : app_state) : res page * app_state :=
  match r with
  | GetIndex => index s
  | GetArticle article_id => article article_id s
  end.

(** The state after a sequence of requests; a request that raises is
    answered by the framework and the process goes on. *)
Fixpoint run (rs : list http_request) (s : app_state) : app_state :=
  match rs with
  | [] => s
  | r :: rs' => run rs' (handle r s).2
  end.

(** *** Observations on the trace *)

(** Each call of [fetch_headlines] starts with exactly one of two effects
    nothing else in the program has: the warning about the missing key, or
    a [requests.get] with query parameters. *)
Definition fetch_mark (e : event) : bool :=
  match e with
  | EvGet r => negb (Nat.eqb (length (req_params r)) 0)
  | EvLog WARNING _ => true
  | _ => false
  end.

(** How many times the fetcher was called. *)
Definition fetch_invocations (t : list event) : nat :=
  length (filter (λ e, fetch_mark e = true) t).

Definition is_get (e : event) : bool :=
  match e with EvGet _ => true | _ => false end.

(** How many outbound requests were made. *)
Definition network_calls (t : list event) : nat :=
  length (filter (λ e, is_get e = true) t).

End App.

(** The process starts with an empty cache. *)
Definition initial_state (w : world) : app_state := AppState [] w.

(** ** Vocabulary of the properties *)

(** Whether the character [c] occurs in [s]. *)
Fixpoint occurs (c : ascii) (s : string) : bool :=
  match s with
  | EmptyString => false
  | String c' s' => Ascii.eqb c' c || occurs c s'
  end.

(** No record of the cache has the identifier [article_id]: each has an
    ["id"] and it differs. *)
Definition no_record_with_id (article_id : Z) (cache : list record) : bool :=
  forallb (λ x : record,
             match x !! "id" with
             | Some v => negb (py_eq_int v article_id)
             | None => false
             end) cache.

(** The record has no ["source_url"], or it is [None], or it is ["#"]. *)
Definition source_url_absent_or_sentinel (a : record) : Prop :=
  a !! "source_url" = None
  ∨ a !! "source_url" = Some VNone
  ∨ a !! "source_url" = Some (VStr "#").

(** The request [fetch_headlines] sends to the provider. *)
Definition headline_request (cfg : config) (country : string) (page_size : Z)
    : request :=
  Request (NEWSAPI_ENDPOINT cfg)
    [("apiKey", api_key cfg); ("country", VStr country);
     ("pageSize", VInt (page_size * 2))]
    (REQUEST_TIMEOUT cfg) [].

(** The provider request failed: no answer, an error status, or a body
    that does not decode. *)
Definition fetch_failed (reply : option response) : bool :=
  match reply with
  | None => true
  | Some resp =>
      http_error resp || match resp_json resp with Some _ => false | None => true end
  end.

(** The provider answered an object with no entries: ["articles"] is the
    empty array, or is not there. *)
Definition zero_entries (reply : option response) : bool :=
  match reply with
  | Some resp =>
      negb (http_error resp)
      && match resp_json resp with
         | Some (VDict m) =>
             match m !! "articles" with
             | None | Some (VList []) => true
             | Some _ => false
             end
         | _ => false
         end
  | None => false
  end.

(** A text field of a provider entry: a string, or [null]. *)
Definition str_or_none (v : value) : bool :=
  match v with
  | VNone | VStr _ => true
  | _ => false
  end.

(** A provider entry as the upstream contract has it: an object whose text
    fields are strings or [null] (or missing), and whose ["source"], when
    there, is an object with such a ["name"]. *)
Definition well_formed_entry (a : value) : bool :=
  match a with
  | VDict m =>
      forallb (λ k, str_or_none (dict_get m k))
        ["title"; "description"; "content"; "url"; "urlToImage"; "publishedAt"]
      && match m !! "source" with
         | None => true
         | Some (VDict src) => str_or_none (dict_get src "name")
         | Some _ => false
         end
  | _ => false
  end.

(** [a.get(k)] on a provider entry that is an object. *)
Definition entry_get (a : value) (k : string) : value :=
  match a with
  | VDict m => dict_get m k
  | _ => VNone
  end.

(** How many records a call returned, when it returned. *)
Definition returned_length (r : res (list record)) : option nat :=
  match r with
  | Ret out => Some (length out)
  | Exc _ => None
  end.

(** The field [key] of the record at position [k] of the cache. *)
Definition field_at (k : nat) (key : string) (s : app_state) : option value :=
  a ← cached_articles s !! k; a !! key.

(** The [full_text] of the record at position [k] of the cache. *)
Definition full_text_at (k : nat) (s : app_state) : option value :=
  field_at k "full_text" s.

(** A computation adds [n] calls of the fetcher to the trace, whatever it
    returns or raises. *)
Definition adds_fetches {A} (n : nat) (m : M A) : Prop :=
  ∀ w, fetch_invocations (trace (m w).2) = (n + fetch_invocations (trace w))%nat.

(** ** The template filter *)

Section Filter.
Context (strftime : datetime → string → option string) (py_str : value → string).

(** [value.strftime(fmt)]: only a [datetime] has [strftime]; the library
    call is [None] where it raises. *)
Definition value_strftime (val : value) (fmt : string) : M string :=
  match val with
  | VDatetime d =>
      match strftime d fmt with
      | Some s => ret s
      | None => raise ValueError
      end
  | _ => raise AttributeError
  end.

(** The filter [datetimeformat]; [py_str] is [str(value)]. *)
Definition datetimeformat (val : value) (fmt : string) : M string :=
  if negb (truthy val) then ret "Unknown"
  else try_except (value_strftime val fmt) (λ _, ret (py_str val)).

End Filter.

(** ** More vocabulary *)

(** The record at position [k] has the identifier [k + 1]. *)
Definition sequential_ids (cache : list record) : Prop :=
  ∀ (k : nat) (a : record),
    cache !! k = Some a → a !! "id" = Some (VInt (Z.of_nat k + 1)).

(** How many of the requests are for the home page. *)
Fixpoint home_requests (rs : list http_request) : nat :=
  match rs with
  | [] => O
  | GetIndex :: rs' => S (home_requests rs')
  | GetArticle _ :: rs' => home_requests rs'
  end.

(** A provider entry that names no image. *)
Definition without_image (a : value) : bool :=
  negb (truthy (entry_get a "urlToImage")).

(** The image path of a record made at index [i]: the placeholder, or the
    served path of a file named after [i]. *)
Definition image_url_of (i : Z) (a : record) : Prop :=
  a !! "image_url" = Some (VStr PLACEHOLDER_IMAGE)
  ∨ ∃ u, a !! "image_url" = Some (VStr (served_path (local_filename u i))).

(** ** Overlapping requests

    The server is started with [threaded=True]: each request runs on its own
    thread, and the routes take no lock. Here the dicts of the cache live in
    a heap, the cache is the list of their addresses, and a route is cut in
    two steps at the point where it has read the shared cache and is about
    to call out: between the test of [index] and its fetch, and between the
    guard of [article] and the enrichment. Threads are switched between
    steps only; the server may switch at more points than these, so every
    execution the steps give is one the program has. *)

Record shared := Shared {
  sh_heap : list record;
  sh_cache : list nat;
  sh_world : world
}.

(** The records [cached_articles] holds. *)
Definition cache_view (s : shared) : list record :=
  (λ loc, default ∅ (sh_heap s !! loc)) <$> sh_cache s.

(** Where a thread stands in its route. *)
Inductive thread :=
| AtIndex
| AtFetch
| AtArticle (article_id : Z)
| AtEnrich (loc : nat)
| Finished (r : res page).

Section Threads.
Context (cfg : config) (ext : extern).

(** One step of a thread: [AtIndex] is the test [if not cached_articles];
    [AtFetch] is the call of the fetcher, the assignment of its result (new
    dicts, at new addresses) and the rendering; [AtArticle] is the lookup
    and the guard on [full_text]; [AtEnrich] is the enricher at work on the
    dict the thread found, and the rendering. *)
Definition thread_step (t : thread) (s : shared) : thread * shared :=
  match t with
  | AtIndex =>
      if negb (truthy (VList (VDict <$> cache_view s))) then (AtFetch, s)
      else (Finished (Ret (IndexPage (cache_view s))), s)
  | AtFetch =>
      match fetch_headlines cfg ext (COUNTRY cfg) (PAGE_SIZE cfg) (sh_world s) with
      | (Ret out, w) =>
          (Finished (Ret (IndexPage out)),
           Shared (sh_heap s ++ out) (seq (length (sh_heap s)) (length out)) w)
      | (Exc e, w) => (Finished (Exc e), Shared (sh_heap s) (sh_cache s) w)
      end
  | AtArticle article_id =>
      match find_article 0 (cache_view s) article_id with
      | Exc e => (Finished (Exc e), s)
      | Ret None => (Finished (Exc NotFound), s)
      | Ret (Some (k, art)) =>
          if negb (truthy (VDict art)) then (Finished (Exc NotFound), s)
          else if negb (truthy (dict_get art "full_text"))
          then (AtEnrich (default 0%nat (sh_cache s !! k)), s)
          else (Finished (Ret (ArticlePage art)), s)
      end
  | AtEnrich loc =>
      match enrich_article_with_newspaper cfg ext
              (default ∅ (sh_heap s !! loc)) (sh_world s) with
      | (Ret art', w) =>
          (Finished (Ret (ArticlePage art')),
           Shared (<[loc := art']> (sh_heap s)) (sh_cache s) w)
      | (Exc e, w) => (Finished (Exc e), Shared (sh_heap s) (sh_cache s) w)
      end
  | Finished r => (Finished r, s)
  end.

(** The threads run as the schedule says: each entry names the thread that
    takes the next step. *)
Fixpoint run_threads (schedule : list nat) (ts : list thread) (s : shared)
    : list thread * shared :=
  match schedule with
  | [] => (ts, s)
  | i :: rest =>
      match ts !! i with
      | Some t =>
          run_threads rest (<[i := (thread_step t s).1]> ts) (thread_step t s).2
      | None => run_threads rest ts s
      end
  end.

(** A request served alone: its thread takes its two steps in a row. *)
Definition serve_alone (t : thread) (s : shared) : thread * shared :=
  thread_step (thread_step t s).1 (thread_step t s).2.

End Threads.

(** The thread that serves a request. *)
Definition start (r : http_request) : thread :=
  match r with
  | GetIndex => AtIndex
  | GetArticle article_id => AtArticle article_id
  end.

(** The cache and the world as the routes see them. *)
Definition state_of (s : shared) : app_state :=
  AppState (cache_view s) (sh_world s).

(** The cache is a list the fetcher returned: its dicts sit side by side in
    the heap. *)
Definition consistent (s : shared) : Prop :=
  ∃ base n, sh_cache s = seq base n ∧ (base + n ≤ length (sh_heap s))%nat.

(** ** Sample environments

    Concrete configurations and outside worlds on which the definitions
    above are evaluated. *)

Module Sample.

Definition endpoint : string := "https://newsapi.org/v2/top-headlines".

Definition cfg_key : config := Config (Some "secret") endpoint "us" 10 6.

Definition cfg_no_key : config := Config None endpoint "us" 10 6.

Definition cfg_page_size (n : Z) : config := Config (Some "secret") endpoint "us" n 6.

Definition world0 : world := World ∅ [].

(** A provider entry with a title and a link, and nothing else. *)
Definition entry (title url : value) : value :=
  VDict (<["title" := title]> (<["url" := url]> ∅)).

Definition provider_json (entries : list value) : value :=
  VDict (<["articles" := VList entries]> ∅).

(** A parser that knows one instant. *)
Definition iso_parser (s : string) : option datetime :=
  if String.eqb s "2024-01-02T03:04:05+00:00"
  then Some (Datetime 2024 1 2 3 4 5 0 (Some 0))
  else None.

(** The provider answers [entries]; every other URL answers 200, with a
    page whose text changes after the first two requests of the process;
    the extractor finds a body only in the later page. *)
Definition ext_of (entries : list value) : extern :=
  Extern
    (λ t r, match req_params r with
            | [] => Some (Response 200 "bytes"
                            (if Nat.leb (length t) 1 then "early" else "late") None)
            | _ => Some (Response 200 "" "" (Some (provider_json entries)))
            end)
    (λ _ _ _, WriteOk)
    (λ _ html, if String.eqb html "late" then Some "Body" else Some "")
    iso_parser
    (λ _ _, None).

(** Every request is answered 404. *)
Definition ext_404 : extern :=
  Extern (λ _ _, Some (Response 404 "" "" None)) (λ _ _ _, WriteOk)
    (λ _ _, None) iso_parser (λ _ _, None).

(** No request gets through. *)
Definition ext_down : extern :=
  Extern (λ _ _, None) (λ _ _ _, WriteOk) (λ _ _, None) iso_parser (λ _ _, None).

Definition story : value :=
  entry (VStr "Title") (VStr "https://news.example/story").

Definition other_story : value :=
  entry (VStr "Other") (VStr "https://news.example/other").

(** The state after the home page and two detail requests for the one
    story the provider has, and the record the cache then holds. *)
Definition enriched : app_state :=
  run cfg_key (ext_of [story]) [GetIndex; GetArticle 1; GetArticle 1]
    (initial_state world0).

Definition enriched_record : record :=
  default ∅ (cached_articles enriched !! 0%nat).

Definition image_a : string := "https://img.example/a.png".
Definition image_b : string := "https://cdn.example/other/b.png?w=640".

(** The web answers 200, the disk fails in the middle of every write and
    leaves an empty file. *)
Definition ext_disk_full : extern :=
  Extern (λ _ _, Some (Response 200 "bytes" "" None)) (λ _ _ _, WriteFails "")
    (λ _ _, None) iso_parser (λ _ _, None).

(** A provider entry with a title and an image. *)
Definition pictured (title img : value) : value :=
  VDict (<["title" := title]> (<["urlToImage" := img]> ∅)).

(** What the fetcher returns for the provider's [entries], with ten records
    a page. *)
Definition fetched (entries : list value) : list record :=
  match (fetch_headlines cfg_key (ext_of entries) "us" 10 world0).1 with
  | Ret out => out
  | Exc _ => []
  end.

(** The provider answers a JSON array where an object is expected. *)
Definition ext_array : extern :=
  Extern (λ _ _, Some (Response 200 "" "" (Some (VList [])))) (λ _ _ _, WriteOk)
    (λ _ _, None) iso_parser (λ _ _, None).

(** The state after the home page alone, and the record the cache holds. *)
Definition listed : app_state :=
  run cfg_key (ext_of [story]) [GetIndex] (initial_state world0).

Definition listed_record : record :=
  default ∅ (cached_articles listed !! 0%nat).

(** The request the enricher sends for the story. *)
Definition story_request : request :=
  Request "https://news.example/story" [] 6 [("User-Agent", "Mozilla/5.0")].

(** A library whose ISO parser refuses everything and whose pattern parser
    reads one timestamp written without leading zeros. *)
Definition ext_fallback : extern :=
  Extern (λ _ _, None) (λ _ _ _, WriteOk) (λ _ _, None) (λ _, None)
    (λ s fmt, if String.eqb s "2024-1-2T3:4:5" && String.eqb fmt "%Y-%m-%dT%H:%M:%S"
              then Some (Datetime 2024 1 2 3 4 5 0 None)
              else None).

(** Reads exactly [n] decimal digits. *)
Fixpoint read_digits (n : nat) (acc : Z) (s : string) : option (Z * string) :=
  match n with
  | O => Some (acc, s)
  | S n' =>
      match s with
      | String c s' =>
          let d := nat_of_ascii c in
          if Nat.leb 48 d && Nat.leb d 57
          then read_digits n' (10 * acc + Z.of_nat (d - 48)) s'
          else None
      | EmptyString => None
      end
  end.

Definition read_char (c : ascii) (s : string) : option string :=
  match s with
  | String c' s' => if Ascii.eqb c' c then Some s' else None
  | EmptyString => None
  end.

Definition leap_year (y : Z) : bool :=
  (y mod 4 =? 0) && (negb (y mod 100 =? 0) || (y mod 400 =? 0)).

Definition days_in_month (y m : Z) : Z :=
  if m =? 2 then (if leap_year y then 29 else 28)
  else if (m =? 4) || (m =? 6) || (m =? 9) || (m =? 11) then 30
  else 31.

(** Reads [YYYY-MM-DDTHH:MM:SS] and checks the fields as the [datetime]
    constructor does: month 1..12, day within the month, hour 0..23, minute
    and second 0..59. *)
Definition read_datetime (s : string) : option (datetime * string) :=
  '(y, s) ← read_digits 4 0 s; s ← read_char "-" s;
  '(m, s) ← read_digits 2 0 s; s ← read_char "-" s;
  '(d, s) ← read_digits 2 0 s; s ← read_char "T" s;
  '(hh, s) ← read_digits 2 0 s; s ← read_char ":" s;
  '(mm, s) ← read_digits 2 0 s; s ← read_char ":" s;
  '(ss, s) ← read_digits 2 0 s;
  if (1 <=? y) && (1 <=? m) && (m <=? 12) && (1 <=? d) && (d <=? days_in_month y m)
     && (hh <=? 23) && (mm <=? 59) && (ss <=? 59)
  then Some (Datetime y m d hh mm ss 0 None, s)
  else None.

(** What [datetime.fromisoformat] answers on strings of the layout
    [YYYY-MM-DDTHH:MM:SS], alone or followed by [+HH:MM] or [-HH:MM]: the
    instant when every field is in range, a [ValueError] otherwise. Other
    layouts are not read here. *)
Definition python_fromisoformat (s : string) : option datetime :=
  '(dt, rest) ← read_datetime s;
  match rest with
  | EmptyString => Some dt
  | String sign rest =>
      '(oh, rest) ← read_digits 2 0 rest; rest ← read_char ":" rest;
      '(om, rest) ← read_digits 2 0 rest;
      if String.eqb rest "" && (oh <=? 23) && (om <=? 59)
      then
        let offset := oh * 3600 + om * 60 in
        if Ascii.eqb sign "+" then
          Some (Datetime (dt_year dt) (dt_month dt) (dt_day dt) (dt_hour dt)
                  (dt_minute dt) (dt_second dt) 0 (Some offset))
        else if Ascii.eqb sign "-" then
          Some (Datetime (dt_year dt) (dt_month dt) (dt_day dt) (dt_hour dt)
                  (dt_minute dt) (dt_second dt) 0 (Some (- offset)))
        else None
      else None
  end.

(** What [datetime.strptime] answers for the pattern [%Y-%m-%dT%H:%M:%S] on
    strings with two-digit fields: the whole string has to match. *)
Definition python_strptime (s fmt : string) : option datetime :=
  if String.eqb fmt "%Y-%m-%dT%H:%M:%S"
  then '(dt, rest) ← read_datetime s;
       if String.eqb rest "" then Some dt else None
  else None.

(** An outside with these two parsers. *)
Definition ext_python : extern :=
  Extern (λ _ _, None) (λ _ _ _, WriteOk) (λ _ _, None)
    python_fromisoformat python_strptime.

(** The provider has the one story; its page has a body for the first
    reader and none for those who come later. *)
Definition ext_fading : extern :=
  Extern
    (λ t r, match req_params r with
            | [] => Some (Response 200 "bytes"
                            (if Nat.leb (length t) 1 then "late" else "early") None)
            | _ => Some (Response 200 "" "" (Some (provider_json [story])))
            end)
    (λ _ _ _, WriteOk)
    (λ _ html, if String.eqb html "late" then Some "Body" else Some "")
    iso_parser
    (λ _ _, None).

(** The shared state after one home-page request served alone. *)
Definition listed_shared : shared :=
  (serve_alone cfg_key ext_fading AtIndex (Shared [] [] world0)).2.

(** The record that one home-page request put in the shared cache, and what
    two runs of the enricher in a row make of it. *)
Definition shared_record : record :=
  default ∅ (cache_view listed_shared !! 0%nat).

Definition enriched_once : res record * world :=
  enrich_article_with_newspaper cfg_key ext_fading shared_record
    (sh_world listed_shared).

Definition record_of (r : res record) : record :=
  match r with
  | Ret a => a
  | Exc _ => ∅
  end.

Definition enriched_twice : res record * world :=
  enrich_article_with_newspaper cfg_key ext_fading (record_of enriched_once.1)
    enriched_once.2.

(** A formatter that knows one instant and one format. *)
Definition sample_strftime (d : datetime) (fmt : string) : option string :=
  if (dt_year d =? 2024) && String.eqb fmt "%Y" then Some "2024" else None.

(** [str] of the values the filter meets here. *)
Definition sample_str (v : value) : string :=
  match v with
  | VStr s => s
  | VInt z => pretty z
  | _ => "object"
  end.

End Sample.

(** * Properties *)

Ltac unfold_monad :=
  unfold mbind, mret, M_bind, M_ret, bind, ret, raise, try_except, log, emit in *.

(** ** The image mirror *)

Section Mirror.
Context (ext : extern).

Lemma truthy_str (s : string) : s ≠ "" → truthy (VStr s) = true.
Proof.
  intros Hs. simpl. destruct (String.eqb_spec s ""); [contradiction | reflexivity].
Qed.

(** A file already at the derived path: the path is returned and the world
    is left as it is. *)
Lemma download_image_hit (url : string) (article_id : Z) (w : world) :
  url ≠ "" →
  is_Some (files w !! local_filename url article_id) →
  download_image ext (VStr url) article_id w
  = (Ret (VStr (served_path (local_filename url article_id))), w).
Proof.
  intros Hurl Hfile. unfold download_image.
  rewrite (truthy_str url Hurl). simpl.
  unfold_monad. unfold os_path_exists.
  rewrite (bool_decide_eq_true_2 _ Hfile). reflexivity.
Qed.

(** The served path of a mirrored file is never the placeholder path. *)
Lemma served_path_not_placeholder (url : string) (article_id : Z) :
  served_path (local_filename url article_id) ≠ PLACEHOLDER_IMAGE.
Proof.
  unfold served_path, local_filename, os_path_join, LOCAL_IMG_FOLDER,
    PLACEHOLDER_IMAGE.
  cbn. intros H. discriminate H.
Qed.

(** When a call returns the served path, the file is there afterwards. *)
Lemma download_image_served_file (url : string) (article_id : Z) (w : world) :
  url ≠ "" →
  (download_image ext (VStr url) article_id w).1
  = Ret (VStr (served_path (local_filename url article_id))) →
  is_Some (files (download_image ext (VStr url) article_id w).2
             !! local_filename url article_id).
Proof.
  intros Hurl. unfold download_image.
  rewrite (truthy_str url Hurl). simpl.
  unfold_monad. unfold os_path_exists, requests_get, write_file.
  destruct (bool_decide (is_Some (files w !! local_filename url article_id))) eqn:Hex.
  - intros _. simpl. by apply bool_decide_eq_true_1 in Hex.
  - simpl. destruct (http_get ext (trace w) _) as [resp|]; simpl.
    + destruct (status_code resp =? 200); simpl.
      * destruct (fs_write ext _ _ _); simpl; intros H.
        -- rewrite lookup_insert_eq. by eexists.
        -- by inversion H.
        -- rewrite lookup_insert_eq. by eexists.
      * intros H. by inversion H.
    + intros H. by inversion H.
Qed.

(** A call makes at most one request. *)
Lemma download_image_network (url : value) (article_id : Z) (w : world) :
  (network_calls (trace (download_image ext url article_id w).2)
   ≤ network_calls (trace w) + 1)%nat.
Proof.
  unfold download_image.
  destruct (truthy url); simpl; [| unfold_monad; simpl; lia].
  destruct url; unfold_monad; simpl; try lia.
  unfold os_path_exists, requests_get, write_file.
  destruct (bool_decide _); simpl; [lia |].
  destruct (http_get ext (trace w) _) as [resp|]; simpl.
  - destruct (status_code resp =? 200); simpl.
    + destruct (fs_write ext _ _ _); simpl; unfold network_calls; simpl; lia.
    + unfold network_calls; simpl; lia.
  - unfold network_calls; simpl; lia.
Qed.

End Mirror.

(** ** The image mirror: the claims *)

(** A call that finds no file at the derived path makes exactly one
    request. *)
Lemma download_image_miss (ext : extern) (url : string) (article_id : Z)
    (w : world) :
  url ≠ "" →
  files w !! local_filename url article_id = None →
  network_calls (trace (download_image ext (VStr url) article_id w).2)
  = S (network_calls (trace w))
  ∧ ((download_image ext (VStr url) article_id w).1
     = Ret (VStr (served_path (local_filename url article_id)))
     ∨ (download_image ext (VStr url) article_id w).1
       = Ret (VStr PLACEHOLDER_IMAGE)).
Proof.
  intros Hurl Hfile. unfold download_image.
  rewrite (truthy_str url Hurl). simpl.
  unfold_monad. unfold os_path_exists, requests_get, write_file.
  rewrite Hfile. simpl.
  destruct (http_get ext (trace w) _) as [resp |]; simpl; [| by split; [| right]].
  destruct (status_code resp =? 200); simpl; [| by split; [| right]].
  destruct (fs_write ext _ _ _); simpl; split; first [done | by left | by right].
Qed.

(** C7, amended. A call that finds a file at the derived path returns that
    path and does nothing else. Two calls with the same URL and identifier
    make at most one request exactly when a file is at the derived path
    after the first call (it was there before, or the first call created
    it, as it has whenever it returned the mirrored path): the second call
    then returns the path from the existence check alone. When no file is
    there after the first call, the first call returned the placeholder
    and each of the two calls makes a request. *)
Theorem download_image_second_call_is_hit (ext : extern) (url : string)
    (article_id : Z) (w : world) :
  url ≠ "" →
  let first := download_image ext (VStr url) article_id w in
  let second := download_image ext (VStr url) article_id first.2 in
  let path := VStr (served_path (local_filename url article_id)) in
  (is_Some (files w !! local_filename url article_id) → first = (Ret path, w))
  ∧ (first.1 = Ret path → is_Some (files first.2 !! local_filename url article_id))
  ∧ (is_Some (files first.2 !! local_filename url article_id) →
       second = (Ret path, first.2)
       ∧ (network_calls (trace second.2) ≤ network_calls (trace w) + 1)%nat)
  ∧ (files first.2 !! local_filename url article_id = None →
       first.1 = Ret (VStr PLACEHOLDER_IMAGE)
       ∧ network_calls (trace first.2) = (network_calls (trace w) + 1)%nat
       ∧ network_calls (trace second.2) = (network_calls (trace w) + 2)%nat).
Proof.
  intros Hurl first second path. split; [| split; [| split]].
  - intros Hfile. by apply download_image_hit.
  - intros Hfirst. by apply download_image_served_file.
  - intros Hfile.
    assert (Hsecond : second = (Ret path, first.2)).
    { by apply download_image_hit. }
    split; [done |]. rewrite Hsecond. simpl. apply download_image_network.
  - intros Hnone.
    assert (Hbefore : files w !! local_filename url article_id = None).
    { destruct (files w !! local_filename url article_id) as [content |] eqn:Hw;
        [| done].
      assert (Hhit : first = (Ret path, w)).
      { apply download_image_hit; [done |]. rewrite Hw. by eexists. }
      rewrite Hhit in Hnone. simpl in Hnone. congruence. }
    destruct (download_image_miss ext url article_id w Hurl Hbefore)
      as [Hcalls Hresult].
    destruct (download_image_miss ext url article_id first.2 Hurl Hnone)
      as [Hcalls' _].
    fold first in Hcalls, Hresult. fold second in Hcalls'.
    split; [| split; [lia | lia]].
    destruct Hresult as [Hserved | Hplaceholder]; [| done].
    apply (download_image_served_file ext url article_id w Hurl) in Hserved.
    fold first in Hserved. rewrite Hnone in Hserved. by destruct Hserved.
Qed.

Lemma download_image_second_call_is_hit_witness :
  let first := download_image (Sample.ext_of []) (VStr Sample.image_a) 1 Sample.world0 in
  download_image (Sample.ext_of []) (VStr Sample.image_a) 1 first.2
  = (Ret (VStr "/static/images/news/1.png"), first.2)
  ∧ network_calls (trace first.2) = 1%nat.
Proof.
  intros first. split.
  - refine (proj1 (proj1 (proj2 (proj2
              (download_image_second_call_is_hit (Sample.ext_of []) Sample.image_a 1
                 Sample.world0 _))) _)).
    + discriminate.
    + vm_compute. by eexists.
  - reflexivity.
Defined.

(** C7 as stated fails: when the first download is refused, nothing is
    stored and the second call goes to the network again. *)
Lemma download_image_twice_two_requests :
  let first := download_image Sample.ext_404 (VStr Sample.image_a) 1 Sample.world0 in
  let second := download_image Sample.ext_404 (VStr Sample.image_a) 1 first.2 in
  first.1 = Ret (VStr PLACEHOLDER_IMAGE)
  ∧ second.1 = Ret (VStr PLACEHOLDER_IMAGE)
  ∧ network_calls (trace Sample.world0) = 0%nat
  ∧ network_calls (trace second.2) = 2%nat.
Proof. repeat split; reflexivity. Qed.

(** C10. The hit depends on the identifier and the derived extension only:
    with a file at the path derived from one URL, a call with another URL of
    the same extension returns that file's path and leaves the world as it
    is; this is so in particular after a call that mirrored the first URL. *)
Theorem download_image_hit_keyed_by_id_and_ext (ext : extern) (url1 url2 : string)
    (article_id : Z) (w : world) :
  url1 ≠ "" → url2 ≠ "" → url1 ≠ url2 →
  derive_ext url1 = derive_ext url2 →
  let path := VStr (served_path (local_filename url1 article_id)) in
  (is_Some (files w !! local_filename url1 article_id) →
     download_image ext (VStr url2) article_id w = (Ret path, w))
  ∧ ((download_image ext (VStr url1) article_id w).1 = Ret path →
       let w1 := (download_image ext (VStr url1) article_id w).2 in
       download_image ext (VStr url2) article_id w1 = (Ret path, w1)).
Proof.
  intros Hurl1 Hurl2 _ Hext path.
  assert (Hname : local_filename url2 article_id = local_filename url1 article_id).
  { unfold local_filename. by rewrite Hext. }
  assert (Hhit : ∀ w', is_Some (files w' !! local_filename url1 article_id) →
                       download_image ext (VStr url2) article_id w' = (Ret path, w')).
  { intros w' Hfile. unfold path. rewrite <- Hname.
    apply download_image_hit; [done |]. by rewrite Hname. }
  split.
  - apply Hhit.
  - intros Hfirst w1. apply Hhit. by apply download_image_served_file.
Qed.

Lemma download_image_hit_keyed_by_id_and_ext_witness :
  let w1 := (download_image (Sample.ext_of []) (VStr Sample.image_a) 1 Sample.world0).2 in
  download_image (Sample.ext_of []) (VStr Sample.image_b) 1 w1
  = (Ret (VStr "/static/images/news/1.png"), w1).
Proof.
  intros w1.
  apply (download_image_hit_keyed_by_id_and_ext (Sample.ext_of [])
           Sample.image_a Sample.image_b 1 Sample.world0);
    [discriminate | discriminate | discriminate | reflexivity | reflexivity].
Defined.

(** ** The timestamp parser *)

Section Timestamps.
Context (ext : extern).

Lemma append_cons (c : ascii) (s t : string) :
  String c s +:+ t = String c (s +:+ t).
Proof. reflexivity. Qed.

Lemma append_assoc (s t u : string) : (s +:+ t) +:+ u = s +:+ (t +:+ u).
Proof.
  induction s as [| c s IH]; [reflexivity |].
  by rewrite !append_cons, IH.
Qed.

Lemma str_replace_app (c : ascii) (new s t : string) :
  str_replace c new (s +:+ t) = str_replace c new s +:+ str_replace c new t.
Proof.
  induction s as [| c' s IH]; [reflexivity |].
  rewrite append_cons. simpl.
  destruct (Ascii.eqb c' c); rewrite IH; [| by rewrite append_cons].
  by rewrite append_assoc.
Qed.

Lemma str_replace_absent (c : ascii) (new s : string) :
  occurs c s = false → str_replace c new s = s.
Proof.
  induction s as [| c' s IH]; simpl; [reflexivity |].
  destruct (Ascii.eqb c' c); simpl; [discriminate |].
  intros H. by rewrite IH.
Qed.

Lemma append_nonempty (s t : string) : t ≠ "" → (s +:+ t =? "")%string = false.
Proof.
  intros Ht. destruct s; [| reflexivity].
  change ("" +:+ t) with t.
  by destruct (String.eqb_spec t "").
Qed.

(** [parse_datetime] returns, and touches nothing. *)
Lemma parse_datetime_returns (val : value) (w : world) :
  ∃ r, parse_datetime ext val w = (Ret r, w).
Proof.
  unfold parse_datetime.
  destruct (truthy val); simpl; [| by eexists].
  unfold replace_Z, datetime_fromisoformat, datetime_strptime.
  destruct val; unfold_monad; simpl; try by eexists.
  destruct (fromisoformat ext _); simpl; [by eexists |].
  destruct (strptime ext _ _); simpl; by eexists.
Qed.

End Timestamps.

(** C6 as stated fails: the leap second at the end of 2016 is an ISO-8601
    timestamp with a trailing [Z], its explicit-offset spelling is refused
    by [datetime.fromisoformat] (a second is 0..59 there), the fallback
    pattern does not match because of the [Z], and the parser answers
    [None]; the second before parses. *)
Lemma parse_datetime_leap_second :
  parse_datetime Sample.ext_python (VStr "2016-12-31T23:59:60Z") Sample.world0
  = (Ret VNone, Sample.world0)
  ∧ parse_datetime Sample.ext_python (VStr "2016-12-31T23:59:59Z") Sample.world0
    = (Ret (VDatetime (Datetime 2016 12 31 23 59 59 0 (Some 0))), Sample.world0).
Proof. split; reflexivity. Qed.

(** C6, amended. A string made of a body without [Z] followed by [Z], whose
    explicit-offset spelling (the body followed by [+00:00]) the library's
    ISO parser accepts, parses to the instant the library gives for that
    spelling; a string that neither the ISO parser (once [Z] is normalised)
    nor the fallback pattern accepts parses to [None]; and no value at all
    makes the parser raise. *)
Theorem parse_datetime_best_effort (ext : extern) :
  (∀ (body : string) (d : datetime) (w : world),
     occurs "Z" body = false →
     fromisoformat ext (body +:+ "+00:00") = Some d →
     parse_datetime ext (VStr (body +:+ "Z")) w = (Ret (VDatetime d), w))
  ∧ (∀ (s : string) (w : world),
       fromisoformat ext (str_replace "Z" "+00:00" s) = None →
       strptime ext s "%Y-%m-%dT%H:%M:%S" = None →
       parse_datetime ext (VStr s) w = (Ret VNone, w))
  ∧ (∀ (val : value) (w : world), ∃ r, parse_datetime ext val w = (Ret r, w)).
Proof.
  split; [| split].
  - intros body d w Hbody Hiso. unfold parse_datetime. simpl.
    rewrite append_nonempty by discriminate. simpl.
    unfold_monad. unfold datetime_fromisoformat.
    rewrite str_replace_app, (str_replace_absent _ _ _ Hbody).
    change (str_replace "Z" "+00:00" "Z") with "+00:00".
    by rewrite Hiso.
  - intros s w Hiso Hfallback. unfold parse_datetime.
    destruct (truthy (VStr s)); simpl; [| reflexivity].
    unfold_monad. unfold datetime_fromisoformat.
    by rewrite Hiso, Hfallback.
  - apply parse_datetime_returns.
Qed.

Lemma parse_datetime_best_effort_witness :
  parse_datetime Sample.ext_down (VStr "2024-01-02T03:04:05Z") Sample.world0
  = (Ret (VDatetime (Datetime 2024 1 2 3 4 5 0 (Some 0))), Sample.world0)
  ∧ parse_datetime Sample.ext_down (VStr "yesterday") Sample.world0
    = (Ret VNone, Sample.world0).
Proof.
  split.
  - apply (proj1 (parse_datetime_best_effort Sample.ext_down)
             "2024-01-02T03:04:05" (Datetime 2024 1 2 3 4 5 0 (Some 0)));
      reflexivity.
  - apply (proj1 (proj2 (parse_datetime_best_effort Sample.ext_down)));
      reflexivity.
Defined.

(** ** The enricher and the detail route *)

(** C9. On a record whose [source_url] is missing, [None] or the sentinel,
    the enricher returns at once: the record and the world (so the trace of
    requests too) are what they were. *)
Theorem enrich_without_source_is_noop (cfg : config) (ext : extern)
    (a : record) (w : world) :
  source_url_absent_or_sentinel a →
  enrich_article_with_newspaper cfg ext a w = (Ret a, w).
Proof.
  intros [H | [H | H]]; unfold enrich_article_with_newspaper, dict_get;
    rewrite H; reflexivity.
Qed.

Lemma enrich_without_source_is_noop_witness :
  enrich_article_with_newspaper Sample.cfg_key (Sample.ext_of [])
    placeholder_article Sample.world0
  = (Ret placeholder_article, Sample.world0).
Proof.
  apply enrich_without_source_is_noop. right; right. reflexivity.
Defined.

Lemma find_article_absent (article_id : Z) (cache : list record) (k : nat) :
  no_record_with_id article_id cache = true →
  find_article k cache article_id = Ret None.
Proof.
  revert k. induction cache as [| x cache IH]; intros k; simpl; [reflexivity |].
  intros [Hx Hrest]%andb_true_iff.
  destruct (x !! "id") as [v |]; [| discriminate].
  apply negb_true_iff in Hx. rewrite Hx. by apply IH.
Qed.

(** C8. A detail request for an identifier no record of the cache has is
    answered not-found, and the whole state is what it was: no record is
    changed and nothing is added to the trace, so no request went out. *)
Theorem article_unknown_id_not_found (cfg : config) (ext : extern)
    (article_id : Z) (s : app_state) :
  no_record_with_id article_id (cached_articles s) = true →
  article cfg ext article_id s = (Exc NotFound, s).
Proof.
  intros H. unfold article. by rewrite (find_article_absent _ _ _ H).
Qed.

Lemma article_unknown_id_not_found_witness :
  article Sample.cfg_key (Sample.ext_of []) 7
    (AppState [placeholder_article] Sample.world0)
  = (Exc NotFound, AppState [placeholder_article] Sample.world0).
Proof.
  apply article_unknown_id_not_found. reflexivity.
Defined.

(** ** The headline fetcher *)

Section Fetcher.
Context (cfg : config) (ext : extern).

Lemma fetch_headlines_no_key (country : string) (page_size : Z) (w : world) :
  truthy (api_key cfg) = false →
  fetch_headlines cfg ext country page_size w
  = (Ret [], World (files w) (EvLog WARNING "NEWSAPI_KEY not set in .env" :: trace w)).
Proof. intros H. unfold fetch_headlines. rewrite H. reflexivity. Qed.

(** With a key, what the fetcher does once the provider's data is known. *)
Lemma fetch_headlines_empty_data (country : string) (page_size : Z) (w : world) :
  truthy (api_key cfg) = true →
  (fetch_failed (http_get ext (trace w) (headline_request cfg country page_size))
   || zero_entries (http_get ext (trace w) (headline_request cfg country page_size)))
  = true →
  (fetch_headlines cfg ext country page_size w).1 = Ret [placeholder_article]
  ∧ files (fetch_headlines cfg ext country page_size w).2 = files w.
Proof.
  intros Hkey Hreply. unfold fetch_headlines. rewrite Hkey. simpl.
  unfold_monad. unfold requests_get, raise_for_status, response_json.
  fold (headline_request cfg country page_size).
  destruct (http_get ext (trace w) (headline_request cfg country page_size))
    as [resp |]; simpl in *; [| done].
  unfold_monad.
  destruct (http_error resp); simpl in *; [done |].
  destruct (resp_json resp) as [data |]; simpl in *; [| done].
  destruct data as [| | | | | m |]; try discriminate.
  simpl. unfold_monad.
  destruct (m !! "articles") as [[| | | | l | |] |]; simpl in *;
    try discriminate; [| done].
  by destruct l.
Qed.

End Fetcher.

(** C2. With a credential, when the provider request fails (no answer, an
    error status, an undecodable body) or the provider's object has no
    entries, the fetcher returns exactly the one placeholder record, whose
    fields are the fixed ones; nothing is written to disk. *)
Theorem fetch_headlines_placeholder (cfg : config) (ext : extern)
    (country : string) (page_size : Z) (w : world) :
  truthy (api_key cfg) = true →
  (fetch_failed (http_get ext (trace w) (headline_request cfg country page_size))
   || zero_entries (http_get ext (trace w) (headline_request cfg country page_size)))
  = true →
  (fetch_headlines cfg ext country page_size w).1 = Ret [placeholder_article]
  ∧ files (fetch_headlines cfg ext country page_size w).2 = files w
  ∧ placeholder_article !! "id" = Some (VInt 1)
  ∧ placeholder_article !! "title" = Some (VStr "No articles available right now")
  ∧ placeholder_article !! "description" = Some (VStr "Please check back later.")
  ∧ placeholder_article !! "image_url" = Some (VStr "/static/images/placeholder.jpg")
  ∧ placeholder_article !! "published_at" = Some VNone
  ∧ placeholder_article !! "full_text" = Some (VStr "").
Proof.
  intros Hkey Hreply.
  destruct (fetch_headlines_empty_data cfg ext country page_size w Hkey Hreply)
    as [Hout Hfiles].
  repeat split; done.
Qed.

Lemma fetch_headlines_placeholder_witness :
  (fetch_headlines Sample.cfg_key Sample.ext_down "us" 10 Sample.world0).1
  = Ret [placeholder_article]
  ∧ (fetch_headlines Sample.cfg_key (Sample.ext_of []) "us" 10 Sample.world0).1
    = Ret [placeholder_article].
Proof.
  split.
  - apply (fetch_headlines_placeholder Sample.cfg_key Sample.ext_down "us" 10
             Sample.world0); reflexivity.
  - apply (fetch_headlines_placeholder Sample.cfg_key (Sample.ext_of []) "us" 10
             Sample.world0); reflexivity.
Defined.

(** ** The home page *)

(** C1 as stated fails: without a credential the first home page is rendered
    with no article at all, not with the placeholder. *)
Lemma index_without_credential_no_placeholder :
  (index Sample.cfg_no_key Sample.ext_down (initial_state Sample.world0)).1
  = Ret (IndexPage [])
  ∧ (index Sample.cfg_no_key Sample.ext_down (initial_state Sample.world0)).1
    ≠ Ret (IndexPage [placeholder_article]).
Proof.
  split; [reflexivity |].
  change ((index Sample.cfg_no_key Sample.ext_down (initial_state Sample.world0)).1)
    with (Ret (IndexPage [])).
  intros H. inversion H.
Qed.

Lemma index_no_key (cfg : config) (ext : extern) (s : app_state) :
  truthy (api_key cfg) = false →
  cached_articles s = [] →
  index cfg ext s
  = (Ret (IndexPage []),
     AppState []
       (World (files (app_world s))
          (EvLog WARNING "NEWSAPI_KEY not set in .env" :: trace (app_world s)))).
Proof.
  intros Hkey Hcache. unfold index. rewrite Hcache. simpl.
  by rewrite fetch_headlines_no_key.
Qed.

(** C1, amended. Without a credential, a home-page request on the empty
    cache renders the home page with the empty sequence the fetcher returned:
    the warning is logged, no request goes out, nothing is written, and the
    cache stays empty. *)
Theorem index_without_credential (cfg : config) (ext : extern) (s : app_state) :
  truthy (api_key cfg) = false →
  cached_articles s = [] →
  index cfg ext s
  = (Ret (IndexPage []),
     AppState []
       (World (files (app_world s))
          (EvLog WARNING "NEWSAPI_KEY not set in .env" :: trace (app_world s)))).
Proof.
  intros Hkey Hcache. unfold index. rewrite Hcache. simpl.
  by rewrite fetch_headlines_no_key.
Qed.

Lemma index_without_credential_witness :
  index Sample.cfg_no_key Sample.ext_down (initial_state Sample.world0)
  = (Ret (IndexPage []),
     AppState [] (World ∅ [EvLog WARNING "NEWSAPI_KEY not set in .env"])).
Proof.
  apply (index_without_credential Sample.cfg_no_key Sample.ext_down
           (initial_state Sample.world0)); reflexivity.
Defined.

(** ** The loop of the fetcher *)

Section Loop.
Context (ext : extern).

(** On a string the mirror returns a path; it never raises. *)
Lemma download_image_str_returns (u : string) (article_id : Z) (w : world) :
  ∃ p w', download_image ext (VStr u) article_id w = (Ret (VStr p), w').
Proof.
  unfold download_image.
  destruct (truthy (VStr u)); simpl; [| by eexists _, _].
  unfold_monad. unfold os_path_exists, requests_get, write_file.
  destruct (bool_decide _); simpl; [by eexists _, _ |].
  destruct (http_get ext (trace w) _) as [resp |]; simpl; [| by eexists _, _].
  destruct (status_code resp =? 200); simpl; [| by eexists _, _].
  destruct (fs_write ext _ _ _); simpl; by eexists _, _.
Qed.

Lemma truthy_str_or_none (v : value) :
  str_or_none v = true → truthy v = true → ∃ u, v = VStr u.
Proof. destruct v; try discriminate; intros _ _; by eexists. Qed.

(** A well-formed entry is turned into a record, without raising. *)
Lemma build_article_well_formed (i : Z) (a : value) (w : world) :
  well_formed_entry a = true →
  ∃ art w',
    build_article ext i a w = (Ret art, w')
    ∧ art !! "id" = Some (VInt i)
    ∧ art !! "title" = Some (py_or (entry_get a "title") (VStr "No title"))
    ∧ art !! "source_url" = Some (py_or (entry_get a "url") (VStr "#"))
    ∧ art !! "full_text" = Some VNone.
Proof.
  destruct a as [| | | | | m |]; try discriminate.
  intros [Hfields Hsource]%andb_true_iff.
  simpl in Hfields. rewrite !andb_true_iff in Hfields.
  destruct Hfields as (_ & _ & _ & _ & Himg & _).
  unfold build_article, py_get. unfold_monad.
  destruct (parse_datetime_returns ext (default VNone (m !! "publishedAt")) w)
    as [published_at Hparse].
  destruct (m !! "source") as [[| | | | | src |] |]; try discriminate;
    simpl; rewrite Hparse;
    (destruct (truthy (default VNone (m !! "urlToImage"))) eqn:Htruthy;
     [ destruct (truthy_str_or_none _ Himg Htruthy) as [u Hu];
       unfold dict_get in Hu; rewrite Hu;
       destruct (download_image_str_returns u i w) as (p & w' & Hdl);
       rewrite Hdl
     | ];
     (eexists _, _; split; [reflexivity | by simplify_map_eq])).
Qed.

End Loop.

Section LoopSpec.
Context (ext : extern) (page_size : Z).

(** With enough well-formed entries the loop fills the page: it returns,
    and the [k]-th record it adds is made from the [k]-th entry. *)
Lemma fetch_loop_records (items : list value) :
  ∀ (out : list record) (i : Z) (w : world),
    forallb well_formed_entry items = true →
    Z.of_nat (length out) < page_size →
    page_size ≤ Z.of_nat (length out) + Z.of_nat (length items) →
    ∃ out' w',
      fetch_loop ext page_size i items out w = (Ret (out ++ out'), w')
      ∧ Z.of_nat (length out) + Z.of_nat (length out') = page_size
      ∧ ∀ (k : nat) (a : record), out' !! k = Some a →
          ∃ e, items !! k = Some e
               ∧ a !! "id" = Some (VInt (i + Z.of_nat k))
               ∧ a !! "title" = Some (py_or (entry_get e "title") (VStr "No title"))
               ∧ a !! "source_url" = Some (py_or (entry_get e "url") (VStr "#"))
               ∧ a !! "full_text" = Some VNone.
Proof.
  induction items as [| e items IH]; intros out i w Hwf Hlt Hle.
  { simpl in Hle. lia. }
  simpl in Hwf. apply andb_true_iff in Hwf as [Hwf_e Hwf_items].
  destruct (build_article_well_formed ext i e w Hwf_e)
    as (art & w1 & Hbuild & Hid & Htitle & Hurl & Htext).
  simpl. unfold_monad. rewrite Hbuild.
  rewrite Z.geb_leb.
  destruct (page_size <=? Z.of_nat (length (out ++ [art]))) eqn:Hfull.
  - exists [art], w1. split; [reflexivity |].
    apply Z.leb_le in Hfull. rewrite length_app in Hfull. simpl in *.
    split; [lia |].
    intros [| k] a Ha; [| discriminate].
    injection Ha as <-. exists e. rewrite Z.add_0_r. done.
  - apply Z.leb_gt in Hfull.
    destruct (IH (out ++ [art]) (i + 1) w1 Hwf_items) as (out' & w' & Hloop & Hlen & Hrec).
    { done. }
    { rewrite length_app. simpl in *. lia. }
    rewrite Hloop, <- app_assoc. exists (art :: out'), w'.
    split; [reflexivity |].
    rewrite length_app in Hlen. simpl in *.
    split; [lia |].
    intros [| k] a Ha.
    + injection Ha as <-. exists e. rewrite Z.add_0_r. done.
    + destruct (Hrec k a Ha) as (e' & He' & Hid' & Hrest).
      exists e'. split; [done |].
      replace (i + Z.of_nat (S k)) with (i + 1 + Z.of_nat k) by lia. done.
Qed.

(** The entries beyond those that fill the page are never looked at. *)
Lemma fetch_loop_take (items : list value) :
  ∀ (out : list record) (i : Z) (w : world),
    Z.of_nat (length out) < page_size →
    fetch_loop ext page_size i
      (take (Z.to_nat (page_size - Z.of_nat (length out))) items) out w
    = fetch_loop ext page_size i items out w.
Proof.
  induction items as [| e items IH]; intros out i w Hlt.
  { by rewrite take_nil. }
  destruct (Z.to_nat (page_size - Z.of_nat (length out))) as [| n] eqn:Hn; [lia |].
  simpl. unfold_monad.
  destruct (build_article ext i e w) as [[art | err] w1]; [| reflexivity].
  rewrite Z.geb_leb.
  destruct (page_size <=? Z.of_nat (length (out ++ [art]))) eqn:Hfull;
    [reflexivity |].
  apply Z.leb_gt in Hfull.
  rewrite <- (IH (out ++ [art]) (i + 1) w1 Hfull).
  replace (Z.to_nat (page_size - Z.of_nat (length (out ++ [art])))) with n;
    [reflexivity |].
  rewrite length_app. simpl. lia.
Qed.

End LoopSpec.

(** C3 as stated fails for a page size of zero: the loop appends before it
    tests the length, so one record comes back where none is announced. *)
Lemma fetch_headlines_page_size_zero :
  forallb well_formed_entry [Sample.story] = true
  ∧ 0 ≤ Z.of_nat (length [Sample.story])
  ∧ returned_length
      (fetch_headlines (Sample.cfg_page_size 0) (Sample.ext_of [Sample.story])
         "us" 0 Sample.world0).1
    = Some 1%nat.
Proof. repeat split; try reflexivity. simpl. lia. Qed.

(** C3, amended. For a page size of at least one, a provider answer with at
    least that many well-formed entries makes the fetcher return exactly
    [page_size] records; the record at position [k] is made from the entry at
    position [k] and has the identifier [k + 1]; the entries beyond the first
    [page_size] are not looked at. *)
Theorem fetch_headlines_full_page (cfg : config) (ext : extern) (country : string)
    (page_size : Z) (w : world) (resp : response) (m : gmap string value)
    (entries : list value) :
  1 ≤ page_size →
  truthy (api_key cfg) = true →
  http_get ext (trace w) (headline_request cfg country page_size) = Some resp →
  http_error resp = false →
  resp_json resp = Some (VDict m) →
  m !! "articles" = Some (VList entries) →
  forallb well_formed_entry entries = true →
  page_size ≤ Z.of_nat (length entries) →
  ∃ out,
    (fetch_headlines cfg ext country page_size w).1 = Ret out
    ∧ Z.of_nat (length out) = page_size
    ∧ (∀ (k : nat) (a : record), out !! k = Some a →
         ∃ e, entries !! k = Some e
              ∧ a !! "id" = Some (VInt (Z.of_nat k + 1))
              ∧ a !! "title" = Some (py_or (entry_get e "title") (VStr "No title"))
              ∧ a !! "source_url" = Some (py_or (entry_get e "url") (VStr "#"))
              ∧ a !! "full_text" = Some VNone)
    ∧ (∀ w1, fetch_loop ext page_size 1 (take (Z.to_nat page_size) entries) [] w1
             = fetch_loop ext page_size 1 entries [] w1).
Proof.
  intros Hsize Hkey Hreply Hstatus Hjson Harticles Hwf Hlen.
  destruct (fetch_loop_records ext page_size entries [] 1
              (World (files w) (EvGet (headline_request cfg country page_size) :: trace w))
              Hwf)
    as (out & w' & Hloop & Hout & Hrec); [simpl; lia | simpl; lia |].
  simpl in Hloop, Hout.
  exists out. split; [| split; [lia | split]].
  - unfold fetch_headlines. rewrite Hkey. simpl.
    unfold_monad. unfold requests_get, raise_for_status, response_json.
    fold (headline_request cfg country page_size).
    rewrite Hreply. simpl. rewrite Hstatus. unfold_monad. rewrite Hjson. simpl.
    unfold_monad. rewrite Harticles. simpl. rewrite Hloop.
    destruct out; [simpl in Hout; lia | reflexivity].
  - intros k a Ha. destruct (Hrec k a Ha) as (e & He & Hid & Hrest).
    exists e. split; [done |]. by rewrite Z.add_comm.
  - intros w1.
    pose proof (fetch_loop_take ext page_size entries [] 1 w1) as Htake.
    simpl in Htake. rewrite Z.sub_0_r in Htake. apply Htake. lia.
Qed.

Lemma fetch_headlines_full_page_witness :
  ∃ out,
    (fetch_headlines (Sample.cfg_page_size 1)
       (Sample.ext_of [Sample.story; Sample.other_story]) "us" 1 Sample.world0).1
    = Ret out
    ∧ Z.of_nat (length out) = 1.
Proof.
  destruct (fetch_headlines_full_page (Sample.cfg_page_size 1)
              (Sample.ext_of [Sample.story; Sample.other_story]) "us" 1 Sample.world0
              (Response 200 "" ""
                 (Some (Sample.provider_json [Sample.story; Sample.other_story])))
              (<["articles" := VList [Sample.story; Sample.other_story]]> ∅)
              [Sample.story; Sample.other_story])
    as (out & Hout & Hlen & _); try reflexivity; try (simpl; lia).
  exists out. split; [exact Hout | exact Hlen].
Defined.

(** ** Calls of the fetcher in the trace *)

Section Frames.
Context (cfg : config) (ext : extern).

Lemma fetch_invocations_cons (e : event) (t : list event) :
  fetch_invocations (e :: t)
  = ((if fetch_mark e then 1 else 0) + fetch_invocations t)%nat.
Proof.
  unfold fetch_invocations. rewrite filter_cons.
  destruct (fetch_mark e); case_decide; simpl; congruence.
Qed.

Lemma adds_ret {A} (a : A) : adds_fetches 0 (ret a).
Proof. intros w. reflexivity. Qed.

Lemma adds_raise {A} (e : exn) : adds_fetches 0 (@raise A e).
Proof. intros w. reflexivity. Qed.

(** What follows a computation that adds [n] calls, and adds none itself,
    leaves the count at [n], also when the first part raises. *)
Lemma adds_bind {A B} (n : nat) (m : M A) (k : A → M B) :
  adds_fetches n m → (∀ a, adds_fetches 0 (k a)) → adds_fetches n (m ≫= k).
Proof.
  intros Hm Hk w. specialize (Hm w). unfold_monad.
  destruct (m w) as [[a | e] w1]; simpl in *; [| done].
  by rewrite (Hk a w1).
Qed.

Lemma adds_try_except {A} (n : nat) (m : M A) (h : exn → M A) :
  adds_fetches n m → (∀ e, adds_fetches 0 (h e)) → adds_fetches n (try_except m h).
Proof.
  intros Hm Hh w. specialize (Hm w). unfold try_except.
  destruct (m w) as [[a | e] w1]; simpl in *; [done |].
  by rewrite (Hh e w1).
Qed.

Lemma adds_log (lvl : level) (msg : string) :
  lvl ≠ WARNING → adds_fetches 0 (log lvl msg).
Proof.
  intros Hlvl w. unfold log, emit. simpl. rewrite fetch_invocations_cons.
  by destruct lvl.
Qed.

Lemma adds_log_warning (msg : string) : adds_fetches 1 (log WARNING msg).
Proof. intros w. unfold log, emit. simpl. by rewrite fetch_invocations_cons. Qed.

Lemma adds_requests_get (r : request) :
  adds_fetches (if fetch_mark (EvGet r) then 1 else 0) (requests_get ext r).
Proof.
  intros w. unfold requests_get.
  destruct (http_get ext (trace w) r); simpl; by rewrite fetch_invocations_cons.
Qed.

Lemma adds_write_file (path content : string) :
  adds_fetches 0 (write_file ext path content).
Proof.
  intros w. unfold write_file.
  destruct (fs_write ext (trace w) path content); simpl;
    by rewrite fetch_invocations_cons.
Qed.

Lemma adds_os_path_exists (path : string) : adds_fetches 0 (os_path_exists path).
Proof. intros w. reflexivity. Qed.

Lemma adds_py_get (v : value) (k : string) (d : value) : adds_fetches 0 (py_get v k d).
Proof. destruct v; simpl; first [apply adds_ret | apply adds_raise]. Qed.

Lemma adds_py_iter (v : value) : adds_fetches 0 (py_iter v).
Proof. destruct v; simpl; first [apply adds_ret | apply adds_raise]. Qed.

Lemma adds_parse_datetime (val : value) : adds_fetches 0 (parse_datetime ext val).
Proof.
  intros w. destruct (parse_datetime_returns ext val w) as [r Hr].
  by rewrite Hr.
Qed.

Lemma adds_download_image (url : value) (article_id : Z) :
  adds_fetches 0 (download_image ext url article_id).
Proof.
  unfold download_image.
  destruct (negb (truthy url)); [apply adds_ret |].
  destruct url; try apply adds_raise.
  apply adds_bind; [apply adds_os_path_exists |].
  intros [|]; [apply adds_ret |].
  apply adds_bind.
  - apply adds_try_except.
    + apply adds_bind; [apply (adds_requests_get (Request s [] 5 [])) |].
      intros resp. destruct (status_code resp =? 200); [| apply adds_ret].
      apply adds_bind; [apply adds_write_file | intros; apply adds_ret].
    + intros e. apply adds_bind; [by apply adds_log | intros; apply adds_ret].
  - intros [path |]; apply adds_ret.
Qed.

Lemma adds_build_article (i : Z) (a : value) : adds_fetches 0 (build_article ext i a).
Proof.
  unfold build_article.
  repeat (apply adds_bind;
          [first [apply adds_py_get | apply adds_parse_datetime] | intros ?]).
  apply adds_bind; [| intros; apply adds_ret].
  destruct (truthy _); [apply adds_download_image | apply adds_ret].
Qed.

Lemma adds_fetch_loop (page_size : Z) (items : list value) :
  ∀ (i : Z) (out : list record), adds_fetches 0 (fetch_loop ext page_size i items out).
Proof.
  induction items as [| a items IH]; intros i out; simpl; [apply adds_ret |].
  apply adds_bind; [apply adds_build_article |].
  intros art. destruct (_ >=? _); [apply adds_ret | apply IH].
Qed.

(** Every call of the fetcher leaves exactly one mark in the trace. *)
Lemma adds_fetch_headlines (country : string) (page_size : Z) :
  adds_fetches 1 (fetch_headlines cfg ext country page_size).
Proof.
  unfold fetch_headlines.
  destruct (negb (truthy (api_key cfg))).
  { apply adds_bind; [apply adds_log_warning | intros; apply adds_ret]. }
  apply adds_bind.
  - apply adds_try_except.
    + apply adds_bind;
        [apply (adds_requests_get (headline_request cfg country page_size)) |].
      intros resp. apply adds_bind.
      * unfold raise_for_status.
        destruct (http_error resp); [apply adds_raise | apply adds_ret].
      * intros _. unfold response_json.
        destruct (resp_json resp); [apply adds_ret | apply adds_raise].
    + intros e. apply adds_bind; [by apply adds_log | intros; apply adds_ret].
  - intros data. apply adds_bind; [apply adds_py_get |].
    intros articles_list. apply adds_bind; [apply adds_py_iter |].
    intros items. apply adds_bind; [apply adds_fetch_loop |].
    intros out. destruct (negb _); apply adds_ret.
Qed.

Lemma adds_enrich (a : record) :
  adds_fetches 0 (enrich_article_with_newspaper cfg ext a).
Proof.
  unfold enrich_article_with_newspaper.
  destruct (_ || _); [apply adds_ret |].
  apply adds_bind.
  - apply adds_try_except; [| intros; apply adds_ret].
    apply adds_bind.
    + unfold requests_get_url.
      destruct (dict_get a "source_url"); try apply adds_raise.
      apply (adds_requests_get (Request s [] (REQUEST_TIMEOUT cfg)
                                  [("User-Agent", "Mozilla/5.0")])).
    + intros resp. destruct (negb _); apply adds_ret.
  - intros [resp |]; [| apply adds_ret].
    apply adds_bind.
    + apply adds_try_except; [| intros; apply adds_ret].
      apply adds_bind; [| intros; apply adds_ret].
      unfold newspaper_text.
      destruct (dict_get a "source_url"); try apply adds_raise.
      destruct (newspaper_parse ext s (resp_text resp));
        [apply adds_ret | apply adds_raise].
    + intros [text |]; apply adds_ret.
Qed.

End Frames.

(** ** The routes and the cache *)

Section Routes.
Context (cfg : config) (ext : extern).

Lemma bind_ret_inv {A B} (m : M A) (k : A → M B) (w w' : world) (b : B) :
  (m ≫= k) w = (Ret b, w') → ∃ a w1, m w = (Ret a, w1) ∧ k a w1 = (Ret b, w').
Proof.
  unfold_monad. destruct (m w) as [[a | e] w1]; [| discriminate].
  intros H. by exists a, w1.
Qed.

(** With a key, what the fetcher returns is never empty. *)
Lemma fetch_headlines_nonempty (country : string) (page_size : Z)
    (w w' : world) (out : list record) :
  truthy (api_key cfg) = true →
  fetch_headlines cfg ext country page_size w = (Ret out, w') →
  out ≠ [].
Proof.
  intros Hkey. unfold fetch_headlines. rewrite Hkey. simpl. intros H.
  apply bind_ret_inv in H as (data & w1 & _ & H).
  apply bind_ret_inv in H as (articles_list & w2 & _ & H).
  apply bind_ret_inv in H as (items & w3 & _ & H).
  apply bind_ret_inv in H as (out0 & w4 & _ & H).
  destruct out0; simpl in H; injection H as <- _; discriminate.
Qed.

(** A non-empty cache is rendered as it is; nothing else happens. *)
Lemma index_cached (s : app_state) :
  cached_articles s ≠ [] →
  index cfg ext s = (Ret (IndexPage (cached_articles s)), s).
Proof. unfold index. by destruct (cached_articles s). Qed.

Lemma find_article_lookup (l : list record) (article_id : Z) :
  ∀ (k0 k : nat) (art : record),
    find_article k0 l article_id = Ret (Some (k, art)) →
    ∃ j, k = (k0 + j)%nat ∧ l !! j = Some art.
Proof.
  induction l as [| x l IH]; intros k0 k art; simpl; [discriminate |].
  destruct (x !! "id") as [v |]; [| discriminate].
  destruct (py_eq_int v article_id).
  - intros H. injection H as <- <-. exists 0%nat. split; [lia | done].
  - intros H. destruct (IH _ _ _ H) as (j & -> & Hj).
    exists (S j). split; [lia | done].
Qed.

(** The enricher returns, and changes at most the [full_text]. *)
Lemma enrich_changes_full_text_only (a : record) (w : world) :
  ∃ a' w',
    enrich_article_with_newspaper cfg ext a w = (Ret a', w')
    ∧ ∀ key, key ≠ "full_text" → a' !! key = a !! key.
Proof.
  unfold enrich_article_with_newspaper.
  destruct (_ || _); [by eexists _, _ |].
  unfold_monad. unfold requests_get_url, newspaper_text, requests_get.
  destruct (dict_get a "source_url"); simpl; try by eexists _, _.
  destruct (http_get ext _ _) as [resp |]; simpl; [| by eexists _, _].
  destruct (negb (status_code resp =? 200)); simpl; [by eexists _, _ |].
  destruct (newspaper_parse ext s (resp_text resp)); simpl; [| by eexists _, _].
  eexists _, _. split; [reflexivity |].
  intros key Hkey. by rewrite lookup_insert_ne.
Qed.

(** A detail request changes no record but the one it found, and of that
    one at most the [full_text]; it never calls the fetcher. *)
Lemma article_frame (article_id : Z) (s : app_state) :
  length (cached_articles (article cfg ext article_id s).2) = length (cached_articles s)
  ∧ (∀ k key, key ≠ "full_text" →
       field_at k key (article cfg ext article_id s).2 = field_at k key s)
  ∧ fetch_invocations (trace (app_world (article cfg ext article_id s).2))
    = fetch_invocations (trace (app_world s)).
Proof.
  unfold article.
  destruct (find_article 0 (cached_articles s) article_id)
    as [[[k0 art] |] | e] eqn:Hfind; simpl; try done.
  destruct (negb (Nat.eqb (size art) 0)); simpl; [| done].
  destruct (negb (truthy (dict_get art "full_text"))); simpl; [| done].
  apply find_article_lookup in Hfind as (j & -> & Hj). simpl.
  pose proof (adds_enrich cfg ext art (app_world s)) as Hfetch.
  destruct (enrich_changes_full_text_only art (app_world s))
    as (art' & w' & Henrich & Hkeys).
  rewrite Henrich in *. simpl in *.
  split; [by rewrite length_insert |]. split; [| done].
  intros k key Hkey. unfold field_at. simpl.
  destruct (decide (k = j)) as [-> | Hne].
  - rewrite list_lookup_insert_eq by (by eapply lookup_lt_Some).
    rewrite Hj. simpl. by apply Hkeys.
  - by rewrite list_lookup_insert_ne.
Qed.

(** Once the cache holds a record, no request calls the fetcher or puts
    other records in the cache. *)
Lemma run_cached (rs : list http_request) :
  ∀ s : app_state,
    cached_articles s ≠ [] →
    fetch_invocations (trace (app_world (run cfg ext rs s)))
    = fetch_invocations (trace (app_world s))
    ∧ length (cached_articles (run cfg ext rs s)) = length (cached_articles s)
    ∧ ∀ k key, key ≠ "full_text" →
        field_at k key (run cfg ext rs s) = field_at k key s.
Proof.
  induction rs as [| r rs IH]; intros s Hs; simpl; [done |].
  assert (Hstep :
    fetch_invocations (trace (app_world (handle cfg ext r s).2))
    = fetch_invocations (trace (app_world s))
    ∧ length (cached_articles (handle cfg ext r s).2) = length (cached_articles s)
    ∧ ∀ k key, key ≠ "full_text" →
        field_at k key (handle cfg ext r s).2 = field_at k key s).
  { destruct r as [| article_id]; simpl.
    - by rewrite index_cached.
    - destruct (article_frame article_id s) as (Hlen & Hkeys & Hfetch). done. }
  destruct Hstep as (Hfetch & Hlen & Hkeys).
  destruct (IH (handle cfg ext r s).2) as (Hfetch' & Hlen' & Hkeys').
  { intros Hnil. rewrite Hnil in Hlen. destruct (cached_articles s); done. }
  split; [congruence |]. split; [congruence |].
  intros k key Hkey. rewrite Hkeys' by done. by apply Hkeys.
Qed.

(** Without a key every home-page request calls the fetcher again. *)
Lemma run_index_no_key (n : nat) :
  ∀ s : app_state,
    truthy (api_key cfg) = false →
    cached_articles s = [] →
    cached_articles (run cfg ext (replicate n GetIndex) s) = []
    ∧ fetch_invocations (trace (app_world (run cfg ext (replicate n GetIndex) s)))
      = (n + fetch_invocations (trace (app_world s)))%nat.
Proof.
  induction n as [| n IH]; intros s Hkey Hs; simpl; [done |].
  rewrite (index_no_key cfg ext s Hkey Hs). simpl.
  destruct (IH (AppState []
                  (World (files (app_world s))
                     (EvLog WARNING "NEWSAPI_KEY not set in .env"
                        :: trace (app_world s)))) Hkey eq_refl)
    as [Hcache Hcount].
  split; [done |]. rewrite Hcount. simpl.
  rewrite fetch_invocations_cons. simpl. lia.
Qed.

(** A populated [full_text] survives any single request, with its record. *)
Lemma handle_keeps_populated (r : http_request) (s : app_state) (k : nat)
    (a : record) :
  cached_articles s !! k = Some a →
  truthy (dict_get a "full_text") = true →
  cached_articles (handle cfg ext r s).2 !! k = Some a.
Proof.
  intros Hk Hfull. destruct r as [| article_id]; simpl.
  - rewrite index_cached; [done |]. intros Hnil. by rewrite Hnil in Hk.
  - unfold article.
    destruct (find_article 0 (cached_articles s) article_id)
      as [[[k0 art] |] | e] eqn:Hfind; simpl; try done.
    destruct (negb (Nat.eqb (size art) 0)); simpl; [| done].
    destruct (negb (truthy (dict_get art "full_text"))) eqn:Hempty; simpl; [| done].
    apply find_article_lookup in Hfind as (j & -> & Hj). simpl.
    destruct (enrich_article_with_newspaper cfg ext art (app_world s))
      as [[art' | e] w']; simpl; [| done].
    rewrite list_lookup_insert_ne; [done |].
    intros ->. rewrite Hk in Hj. injection Hj as <-.
    by rewrite Hfull in Hempty.
Qed.

End Routes.

(** Without a key the cache stays empty whatever is requested, and exactly
    the home-page requests call the fetcher. *)
Lemma run_no_key (cfg : config) (ext : extern) (rs : list http_request) :
  ∀ s : app_state,
    truthy (api_key cfg) = false →
    cached_articles s = [] →
    cached_articles (run cfg ext rs s) = []
    ∧ fetch_invocations (trace (app_world (run cfg ext rs s)))
      = (home_requests rs + fetch_invocations (trace (app_world s)))%nat.
Proof.
  induction rs as [| r rs IH]; intros s Hkey Hs; simpl; [done |].
  destruct r as [| article_id]; simpl.
  - rewrite (index_no_key cfg ext s Hkey Hs). simpl.
    destruct (IH (AppState []
                    (World (files (app_world s))
                       (EvLog WARNING "NEWSAPI_KEY not set in .env"
                          :: trace (app_world s)))) Hkey eq_refl)
      as [Hcache Hcount].
    split; [done |]. rewrite Hcount. simpl.
    rewrite fetch_invocations_cons. simpl. lia.
  - unfold article. rewrite Hs. simpl. by apply IH.
Qed.

(** C4 as stated fails: without a credential the first fetch returns the
    empty sequence, the cache stays empty, and the second home-page request
    calls the fetcher again. *)
Lemma fetcher_called_again_without_credential :
  let s0 := initial_state Sample.world0 in
  let s1 := run Sample.cfg_no_key Sample.ext_down [GetIndex] s0 in
  let s2 := run Sample.cfg_no_key Sample.ext_down [GetIndex; GetIndex] s0 in
  fetch_invocations (trace (app_world s0)) = 0%nat
  ∧ fetch_invocations (trace (app_world s1)) = 1%nat
  ∧ cached_articles s1 = []
  ∧ fetch_invocations (trace (app_world s2)) = 2%nat.
Proof. repeat split; reflexivity. Qed.

(** C4, amended. For requests served one after another ([run] takes them in
    turn, none overlapping another): a home-page request that finds the
    cache empty calls the fetcher exactly once. With a credential, when
    that request returns, the cache holds at least one record; and from a
    cache that holds a record on, no sequence of requests calls the fetcher
    again or replaces the records (their number and every field but
    [full_text] stay). Without a credential the cache stays empty whatever
    is requested next, and each further home-page request, and no detail
    request, calls the fetcher once more. *)
Theorem cache_populated_once (cfg : config) (ext : extern) (s : app_state) :
  cached_articles s = [] →
  let s1 := (index cfg ext s).2 in
  fetch_invocations (trace (app_world s1)) = S (fetch_invocations (trace (app_world s)))
  ∧ (truthy (api_key cfg) = true →
     (∃ p, (index cfg ext s).1 = Ret p) →
     cached_articles s1 ≠ [])
  ∧ (cached_articles s1 ≠ [] →
     ∀ rs : list http_request,
       fetch_invocations (trace (app_world (run cfg ext rs s1)))
       = fetch_invocations (trace (app_world s1))
       ∧ length (cached_articles (run cfg ext rs s1)) = length (cached_articles s1)
       ∧ ∀ k key, key ≠ "full_text" →
           field_at k key (run cfg ext rs s1) = field_at k key s1)
  ∧ (truthy (api_key cfg) = false →
     ∀ rs : list http_request,
       cached_articles (run cfg ext rs s1) = []
       ∧ fetch_invocations (trace (app_world (run cfg ext rs s1)))
         = (home_requests rs + fetch_invocations (trace (app_world s1)))%nat).
Proof.
  intros Hempty s1. split; [| split; [| split]].
  - unfold s1, index. rewrite Hempty. simpl.
    pose proof (adds_fetch_headlines cfg ext (COUNTRY cfg) (PAGE_SIZE cfg) (app_world s))
      as Hfetch.
    by destruct (fetch_headlines cfg ext (COUNTRY cfg) (PAGE_SIZE cfg) (app_world s))
      as [[out | e] w'].
  - intros Hkey [p Hp]. revert Hp. unfold s1, index. rewrite Hempty. simpl.
    destruct (fetch_headlines cfg ext (COUNTRY cfg) (PAGE_SIZE cfg) (app_world s))
      as [[out | e] w'] eqn:Hfetch; simpl; [| discriminate].
    intros _. by eapply fetch_headlines_nonempty.
  - intros Hs1 rs. by apply run_cached.
  - intros Hkey rs. apply run_no_key; [done |].
    unfold s1. by rewrite index_no_key.
Qed.

Lemma cache_populated_once_witness :
  let s0 := initial_state Sample.world0 in
  let s1 := (index Sample.cfg_key (Sample.ext_of [Sample.story]) s0).2 in
  let s4 := run Sample.cfg_key (Sample.ext_of [Sample.story])
              [GetIndex; GetArticle 1; GetIndex] s1 in
  fetch_invocations (trace (app_world s1)) = 1%nat
  ∧ fetch_invocations (trace (app_world s4)) = fetch_invocations (trace (app_world s1))
  ∧ length (cached_articles s4) = length (cached_articles s1).
Proof.
  intros s0 s1 s4.
  destruct (cache_populated_once Sample.cfg_key (Sample.ext_of [Sample.story]) s0
              eq_refl) as (Hfirst & Hfilled & Hlater & _).
  split; [exact Hfirst |].
  destruct (Hlater (Hfilled eq_refl (ex_intro _ _ eq_refl))
              [GetIndex; GetArticle 1; GetIndex]) as (Hfetch & Hlen & _).
  split; [exact Hfetch | exact Hlen].
Defined.

(** C5 as stated fails: the enricher can store the empty string (the page
    gives no text, and the record has no content and no description); the
    guard of the route sees an empty [full_text] as missing and enriches
    again, so the field changes a second time. *)
Lemma full_text_changes_twice :
  let ext := Sample.ext_of [Sample.story] in
  let s1 := run Sample.cfg_key ext [GetIndex] (initial_state Sample.world0) in
  let s2 := run Sample.cfg_key ext [GetArticle 1] s1 in
  let s3 := run Sample.cfg_key ext [GetArticle 1] s2 in
  full_text_at 0 s1 = Some VNone
  ∧ full_text_at 0 s2 = Some (VStr "")
  ∧ full_text_at 0 s3 = Some (VStr "Body").
Proof. repeat split; reflexivity. Qed.

(** C5, amended. For requests served one after another ([run] takes them in
    turn, none overlapping another): a record of the cache whose [full_text]
    is populated (not absent and not empty) stays as it is across any
    sequence of requests; its [full_text] is never cleared or overwritten.
    (While [full_text] is absent or empty, each detail request for the
    record may enrich it.) *)
Theorem populated_full_text_is_kept (cfg : config) (ext : extern)
    (rs : list http_request) (s : app_state) (k : nat) (a : record) :
  cached_articles s !! k = Some a →
  truthy (dict_get a "full_text") = true →
  cached_articles (run cfg ext rs s) !! k = Some a
  ∧ full_text_at k (run cfg ext rs s) = full_text_at k s.
Proof.
  intros Hk Hfull.
  assert (Hrun : cached_articles (run cfg ext rs s) !! k = Some a).
  { revert s Hk. induction rs as [| r rs IH]; intros s Hk; simpl; [done |].
    apply IH. by apply handle_keeps_populated. }
  split; [done |]. unfold full_text_at, field_at. by rewrite Hrun, Hk.
Qed.

Lemma populated_full_text_is_kept_witness :
  full_text_at 0 Sample.enriched = Some (VStr "Body")
  ∧ full_text_at 0
      (run Sample.cfg_key (Sample.ext_of [Sample.story])
         [GetArticle 1; GetIndex; GetArticle 1] Sample.enriched)
    = full_text_at 0 Sample.enriched.
Proof.
  split; [reflexivity |].
  apply (populated_full_text_is_kept Sample.cfg_key (Sample.ext_of [Sample.story])
           [GetArticle 1; GetIndex; GetArticle 1] Sample.enriched 0
           Sample.enriched_record);
    reflexivity.
Defined.

(** * Further properties of the code *)

(** ** The image mirror *)

(** X1. Without a URL ([None], the empty string, or any other falsy value)
    the mirror returns the placeholder path and does nothing: no request, no
    file, no log record. *)
Theorem download_image_without_url (ext : extern) (url : value) (article_id : Z)
    (w : world) :
  truthy url = false →
  download_image ext url article_id w = (Ret (VStr PLACEHOLDER_IMAGE), w).
Proof. intros H. unfold download_image. by rewrite H. Qed.

Lemma download_image_without_url_witness :
  download_image Sample.ext_down VNone 4 Sample.world0
  = (Ret (VStr "/static/images/placeholder.jpg"), Sample.world0)
  ∧ download_image Sample.ext_down (VStr "") 4 Sample.world0
    = (Ret (VStr "/static/images/placeholder.jpg"), Sample.world0).
Proof.
  split; apply download_image_without_url; reflexivity.
Defined.

(** X2. Whatever the URL, the extension the mirror derives is, up to the
    case of its letters, one of [jpg], [jpeg], [png], [webp]. *)
Theorem derive_ext_whitelisted (url : string) :
  str_lower (derive_ext url) ∈ image_extensions.
Proof.
  unfold derive_ext.
  destruct (bool_decide (str_lower (first_segment (str_split "?"
             (last_segment (str_split "." url)))) ∈ image_extensions)) eqn:Hext.
  - by apply bool_decide_eq_true_1 in Hext.
  - by apply (bool_decide_unpack _).
Qed.

(** X3. On a string the mirror never raises: it returns the placeholder
    path, or the served path of the local file, and in the second case that
    file exists when the call is over. It makes at most one request. *)
Theorem download_image_result (ext : extern) (u : string) (article_id : Z)
    (w : world) :
  let r := download_image ext (VStr u) article_id w in
  (r.1 = Ret (VStr PLACEHOLDER_IMAGE)
   ∨ (r.1 = Ret (VStr (served_path (local_filename u article_id)))
      ∧ is_Some (files r.2 !! local_filename u article_id)))
  ∧ (network_calls (trace r.2) ≤ network_calls (trace w) + 1)%nat.
Proof.
  intros r. split; [| apply download_image_network].
  unfold r, download_image.
  destruct (truthy (VStr u)); simpl; [| by left].
  unfold_monad. unfold os_path_exists, requests_get, write_file.
  destruct (bool_decide (is_Some (files w !! local_filename u article_id))) eqn:Hex.
  { right. simpl. split; [done |]. by apply bool_decide_eq_true_1 in Hex. }
  simpl. destruct (http_get ext (trace w) _) as [resp |]; simpl; [| by left].
  destruct (status_code resp =? 200); simpl; [| by left].
  destruct (fs_write ext _ _ _); simpl; [| by left | by left].
  right. split; [done |]. rewrite lookup_insert_eq. by eexists.
Qed.

(** X4. The mirror never touches a file that exists, and never a path other
    than the one it derives: every such path holds after the call what it
    held before. *)
Theorem download_image_keeps_files (ext : extern) (url : value) (article_id : Z)
    (w : world) (path : string) :
  (is_Some (files w !! path)
   ∨ ∀ u, url = VStr u → path ≠ local_filename u article_id) →
  files (download_image ext url article_id w).2 !! path = files w !! path.
Proof.
  intros Hpath. unfold download_image.
  destruct (truthy url); simpl; [| done].
  destruct url as [| | | u | | |]; try done.
  unfold_monad. unfold os_path_exists, requests_get, write_file.
  destruct (bool_decide (is_Some (files w !! local_filename u article_id))) eqn:Hex;
    simpl; [done |].
  apply bool_decide_eq_false_1 in Hex.
  assert (Hne : local_filename u article_id ≠ path).
  { destruct Hpath as [Hsome | Hother].
    - intros <-. contradiction.
    - intros Heq. by apply (Hother u eq_refl). }
  destruct (http_get ext (trace w) _) as [resp |]; simpl; [| done].
  destruct (status_code resp =? 200); simpl; [| done].
  destruct (fs_write ext _ _ _); simpl; by rewrite ?lookup_insert_ne.
Qed.

Lemma download_image_keeps_files_witness :
  let w := World {["static/images/news/1.png" := "old"]} [] in
  files (download_image (Sample.ext_of []) (VStr Sample.image_a) 1 w).2
    !! "static/images/news/1.png" = Some "old"
  ∧ files (download_image (Sample.ext_of []) (VStr Sample.image_a) 2 w).2
      !! "static/images/news/1.png" = Some "old".
Proof.
  intros w. split.
  - rewrite (download_image_keeps_files (Sample.ext_of []) (VStr Sample.image_a) 1 w
               "static/images/news/1.png"); [reflexivity |].
    left. by eexists.
  - rewrite (download_image_keeps_files (Sample.ext_of []) (VStr Sample.image_a) 2 w
               "static/images/news/1.png"); [reflexivity |].
    right. intros u Hu. injection Hu as <-. discriminate.
Defined.

(** X5. A first download that succeeds: with no file at the derived path, an
    answer with status 200 and a write that succeeds, the mirror makes one
    request (no parameters, timeout 5), stores the body of the answer at the
    derived path and returns the served path. *)
Theorem download_image_stores_body (ext : extern) (u : string) (article_id : Z)
    (w : world) (resp : response) :
  u ≠ "" →
  files w !! local_filename u article_id = None →
  http_get ext (trace w) (Request u [] 5 []) = Some resp →
  status_code resp = 200 →
  fs_write ext (EvGet (Request u [] 5 []) :: trace w)
    (local_filename u article_id) (resp_content resp) = WriteOk →
  download_image ext (VStr u) article_id w
  = (Ret (VStr (served_path (local_filename u article_id))),
     World (<[local_filename u article_id := resp_content resp]> (files w))
       (EvWrite (local_filename u article_id)
          :: EvGet (Request u [] 5 []) :: trace w)).
Proof.
  intros Hu Hfile Hget Hstatus Hwrite. unfold download_image.
  rewrite (truthy_str u Hu). simpl.
  unfold_monad. unfold os_path_exists, requests_get, write_file.
  rewrite Hfile. simpl. rewrite Hget. simpl. rewrite Hstatus. simpl.
  by rewrite Hwrite.
Qed.

Lemma download_image_stores_body_witness :
  download_image (Sample.ext_of []) (VStr Sample.image_a) 1 Sample.world0
  = (Ret (VStr "/static/images/news/1.png"),
     World {["static/images/news/1.png" := "bytes"]}
       [EvWrite "static/images/news/1.png";
        EvGet (Request Sample.image_a [] 5 [])]).
Proof.
  apply (download_image_stores_body (Sample.ext_of []) Sample.image_a 1 Sample.world0
           (Response 200 "bytes" "early" None)); first [discriminate | reflexivity].
Defined.

(** X6. A write that fails half-way is answered with the placeholder, but
    the partial file stays: the next call for the same identifier and
    extension finds it and returns its path, without any request. *)
Theorem download_image_serves_partial_file (ext : extern) (u : string)
    (article_id : Z) (w : world) (resp : response) (partial : string) :
  u ≠ "" →
  files w !! local_filename u article_id = None →
  http_get ext (trace w) (Request u [] 5 []) = Some resp →
  status_code resp = 200 →
  fs_write ext (EvGet (Request u [] 5 []) :: trace w)
    (local_filename u article_id) (resp_content resp) = WriteFails partial →
  let first := download_image ext (VStr u) article_id w in
  first.1 = Ret (VStr PLACEHOLDER_IMAGE)
  ∧ files first.2 !! local_filename u article_id = Some partial
  ∧ download_image ext (VStr u) article_id first.2
    = (Ret (VStr (served_path (local_filename u article_id))), first.2).
Proof.
  intros Hu Hfile Hget Hstatus Hwrite first.
  assert (Hfirst : first
    = (Ret (VStr PLACEHOLDER_IMAGE),
       World (<[local_filename u article_id := partial]> (files w))
         (EvLog INFO "Failed to download image: %s"
            :: EvWrite (local_filename u article_id)
            :: EvGet (Request u [] 5 []) :: trace w))).
  { unfold first, download_image. rewrite (truthy_str u Hu). simpl.
    unfold_monad. unfold os_path_exists, requests_get, write_file.
    rewrite Hfile. simpl. rewrite Hget. simpl. rewrite Hstatus. simpl.
    by rewrite Hwrite. }
  rewrite Hfirst. simpl. split; [done |]. split; [by rewrite lookup_insert_eq |].
  apply download_image_hit; [done |]. simpl. rewrite lookup_insert_eq. by eexists.
Qed.

Lemma download_image_serves_partial_file_witness :
  let first := download_image Sample.ext_disk_full (VStr Sample.image_a) 1 Sample.world0 in
  first.1 = Ret (VStr PLACEHOLDER_IMAGE)
  ∧ files first.2 !! "static/images/news/1.png" = Some ""
  ∧ download_image Sample.ext_disk_full (VStr Sample.image_a) 1 first.2
    = (Ret (VStr "/static/images/news/1.png"), first.2).
Proof.
  apply (download_image_serves_partial_file Sample.ext_disk_full Sample.image_a 1
           Sample.world0 (Response 200 "bytes" "" None) "");
    first [discriminate | reflexivity].
Defined.

(** X7. A truthy URL that is not a string (a number, a list, an object of
    the provider's JSON) makes the mirror raise [AttributeError] at
    [url.split], before any effect. *)
Theorem download_image_not_a_string (ext : extern) (url : value) (article_id : Z)
    (w : world) :
  truthy url = true →
  (∀ u, url ≠ VStr u) →
  download_image ext url article_id w = (Exc AttributeError, w).
Proof.
  intros Htruthy Hstr. unfold download_image. rewrite Htruthy. simpl.
  destruct url; try reflexivity. by destruct (Hstr s).
Qed.

Lemma download_image_not_a_string_witness :
  download_image Sample.ext_down (VInt 7) 1 Sample.world0
  = (Exc AttributeError, Sample.world0).
Proof.
  apply download_image_not_a_string; [reflexivity | discriminate].
Defined.

(** ** The headline fetcher, whatever the provider sends *)

Section FetcherAnyInput.
Context (cfg : config) (ext : extern).

Lemma network_calls_cons (e : event) (t : list event) :
  network_calls (e :: t) = ((if is_get e then 1 else 0) + network_calls t)%nat.
Proof.
  unfold network_calls. rewrite filter_cons.
  destruct (is_get e); case_decide; simpl; congruence.
Qed.

Lemma py_get_ret (v : value) (k : string) (d x : value) (w w' : world) :
  py_get v k d w = (Ret x, w') →
  w' = w ∧ ∃ m, v = VDict m ∧ x = default d (m !! k).
Proof.
  destruct v; simpl; unfold_monad; try discriminate.
  intros H. injection H as <- <-. split; [done |]. by eexists.
Qed.

Lemma py_iter_ret (v : value) (l : list value) (w w' : world) :
  py_iter v w = (Ret l, w') → w' = w.
Proof.
  destruct v; simpl; unfold_monad; try discriminate; intros H; by injection H.
Qed.

(** What a returning call of the mirror gives, for any value. *)
Lemma download_image_ret (url v : value) (i : Z) (w w' : world) :
  download_image ext url i w = (Ret v, w') →
  (v = VStr PLACEHOLDER_IMAGE
   ∨ ∃ u, v = VStr (served_path (local_filename u i)))
  ∧ (network_calls (trace w') ≤ network_calls (trace w) + 1)%nat.
Proof.
  intros H.
  pose proof (download_image_network ext url i w) as Hcalls.
  rewrite H in Hcalls. split; [| done].
  revert H. unfold download_image.
  destruct (truthy url); simpl; unfold_monad;
    [| intros H; injection H as <- _; by left].
  destruct url as [| | | u | | |]; try discriminate.
  unfold os_path_exists, requests_get, write_file.
  destruct (bool_decide _); simpl.
  { intros H. injection H as <- _. right. by eexists. }
  destruct (http_get ext (trace w) _) as [resp |]; simpl;
    [| intros H; injection H as <- _; by left].
  destruct (status_code resp =? 200); simpl;
    [| intros H; injection H as <- _; by left].
  destruct (fs_write ext _ _ _); simpl; intros H; injection H as <- _;
    first [by left | right; by eexists].
Qed.

(** What a returning run of the loop body gives. *)
Lemma build_article_ret (i : Z) (a : value) (w w' : world) (art : record) :
  build_article ext i a w = (Ret art, w') →
  art !! "id" = Some (VInt i)
  ∧ art !! "full_text" = Some VNone
  ∧ image_url_of i art
  ∧ (network_calls (trace w') ≤ network_calls (trace w) + 1)%nat.
Proof.
  unfold build_article. intros H.
  apply bind_ret_inv in H as (title & w1 & [-> _]%py_get_ret & H).
  apply bind_ret_inv in H as (description & w2 & [-> _]%py_get_ret & H).
  apply bind_ret_inv in H as (content & w3 & [-> _]%py_get_ret & H).
  apply bind_ret_inv in H as (source & w4 & [-> _]%py_get_ret & H).
  apply bind_ret_inv in H as (source_name & w5 & [-> _]%py_get_ret & H).
  apply bind_ret_inv in H as (url & w6 & [-> _]%py_get_ret & H).
  apply bind_ret_inv in H as (published & w7 & [-> _]%py_get_ret & H).
  apply bind_ret_inv in H as (published_at & w8 & Hparse & H).
  destruct (parse_datetime_returns ext published w) as [r Hr].
  rewrite Hr in Hparse. injection Hparse as -> <-.
  apply bind_ret_inv in H as (url_to_image & w9 & [-> _]%py_get_ret & H).
  apply bind_ret_inv in H as (image_url & w10 & Himage & H).
  unfold_monad. injection H as <- <-.
  assert (Himg : (image_url = VStr PLACEHOLDER_IMAGE
                  ∨ ∃ u, image_url = VStr (served_path (local_filename u i)))
                 ∧ (network_calls (trace w10) ≤ network_calls (trace w) + 1)%nat).
  { destruct (truthy url_to_image).
    - by apply download_image_ret in Himage.
    - injection Himage as <- <-. split; [by left | lia]. }
  destruct Himg as [Hshape Hcalls].
  split; [by simplify_map_eq |]. split; [by simplify_map_eq |].
  split; [| done].
  unfold image_url_of. rewrite lookup_insert_eq.
  destruct Hshape as [-> | [u ->]]; [by left | right; by eexists].
Qed.

(** What a returning loop gives: the records it had, then records numbered
    from [i] on; it stops at the page size; each record costs at most one
    request. *)
Lemma fetch_loop_ret (page_size : Z) (items : list value) :
  ∀ (out : list record) (i : Z) (w w' : world) (out' : list record),
    fetch_loop ext page_size i items out w = (Ret out', w') →
    ∃ added,
      out' = out ++ added
      ∧ (∀ (k : nat) (a : record), added !! k = Some a →
           a !! "id" = Some (VInt (i + Z.of_nat k))
           ∧ a !! "full_text" = Some VNone
           ∧ image_url_of (i + Z.of_nat k) a)
      ∧ Z.of_nat (length out') ≤ Z.max (Z.of_nat (length out) + 1) page_size
      ∧ (network_calls (trace w') ≤ network_calls (trace w) + length added)%nat.
Proof.
  induction items as [| e items IH]; intros out i w w' out'; simpl.
  { unfold_monad. intros H. injection H as <- <-. exists [].
    rewrite app_nil_r. split; [done |]. split; [done |]. simpl. lia. }
  intros H. apply bind_ret_inv in H as (art & w1 & Hbuild & H).
  apply build_article_ret in Hbuild as (Hid & Htext & Himage & Hcalls).
  rewrite Z.geb_leb in H.
  destruct (page_size <=? Z.of_nat (length (out ++ [art]))) eqn:Hfull.
  - unfold_monad. injection H as <- <-. exists [art].
    split; [done |]. rewrite length_app. simpl.
    split; [| lia].
    intros [| k] a Ha; [| discriminate].
    injection Ha as <-. by rewrite Z.add_0_r.
  - apply Z.leb_gt in Hfull.
    apply IH in H as (added & -> & Hadded & Hlen & Hcalls').
    exists (art :: added). rewrite <- app_assoc. split; [done |].
    rewrite !length_app in *. simpl in *.
    split; [| split; [lia | lia]].
    intros [| k] a Ha.
    + injection Ha as <-. by rewrite Z.add_0_r.
    + replace (i + Z.of_nat (S k)) with (i + 1 + Z.of_nat k) by lia.
      by apply Hadded.
Qed.

(** With a key, a returning call made one request to the provider, then ran
    the loop, then put the placeholder in if the loop gave nothing. *)
Lemma fetch_headlines_key_inv (country : string) (page_size : Z)
    (w w' : world) (out : list record) :
  truthy (api_key cfg) = true →
  fetch_headlines cfg ext country page_size w = (Ret out, w') →
  ∃ items out0 w1,
    network_calls (trace w1) = S (network_calls (trace w))
    ∧ fetch_loop ext page_size 1 items [] w1 = (Ret out0, w')
    ∧ out = match out0 with [] => [placeholder_article] | _ => out0 end.
Proof.
  intros Hkey. unfold fetch_headlines. rewrite Hkey. simpl. intros H.
  apply bind_ret_inv in H as (data & w1 & Hdata & H).
  apply bind_ret_inv in H as (articles_list & w2 & [-> _]%py_get_ret & H).
  apply bind_ret_inv in H as (items & w3 & ->%py_iter_ret & H).
  apply bind_ret_inv in H as (out0 & w4 & Hloop & H).
  exists items, out0, w1. split; [| split; [| ]].
  - revert Hdata. unfold_monad. unfold requests_get, raise_for_status, response_json.
    destruct (http_get ext (trace w) _) as [resp |]; simpl.
    + destruct (http_error resp); unfold_monad; simpl.
      * intros Hd. injection Hd as _ <-. simpl. by rewrite !network_calls_cons.
      * destruct (resp_json resp); simpl; intros Hd; injection Hd as _ <-; simpl;
          by rewrite !network_calls_cons.
    + intros Hd. injection Hd as _ <-. simpl. by rewrite !network_calls_cons.
  - destruct out0; simpl in H; unfold_monad; by injection H as _ <-.
  - destruct out0; simpl in H; unfold_monad; by injection H as <- _.
Qed.

Lemma placeholder_image_url : image_url_of 1 placeholder_article.
Proof. by left. Qed.

(** What any returning call of the fetcher gives. *)
Lemma fetch_headlines_ret (country : string) (page_size : Z) (w w' : world)
    (out : list record) :
  fetch_headlines cfg ext country page_size w = (Ret out, w') →
  sequential_ids out
  ∧ (∀ (k : nat) (a : record), out !! k = Some a → image_url_of (Z.of_nat k + 1) a)
  ∧ Z.of_nat (length out) ≤ Z.max 1 page_size
  ∧ (truthy (api_key cfg) = true → out ≠ [])
  ∧ (network_calls (trace w') ≤ network_calls (trace w) + 1 + length out)%nat.
Proof.
  destruct (truthy (api_key cfg)) eqn:Hkey.
  - intros H.
    destruct (fetch_headlines_key_inv _ _ _ _ _ Hkey H)
      as (items & out0 & w1 & Hw1 & Hloop & ->).
    apply fetch_loop_ret in Hloop as (added & -> & Hadded & Hlen & Hcalls).
    simpl in *. destruct added as [| a added].
    + split; [| split; [| split; [| split]]].
      * intros [| k] b Hb; [| discriminate]. by injection Hb as <-.
      * intros [| k] b Hb; [| discriminate]. injection Hb as <-.
        apply placeholder_image_url.
      * simpl. lia.
      * done.
      * simpl in *. lia.
    + split; [| split; [| split; [| split]]].
      * intros k b Hb. destruct (Hadded k b Hb) as (Hid & _).
        by rewrite Z.add_comm.
      * intros k b Hb. destruct (Hadded k b Hb) as (_ & _ & Himg).
        by rewrite Z.add_comm.
      * lia.
      * done.
      * lia.
  - rewrite fetch_headlines_no_key by done. intros H. injection H as <- <-.
    split; [| split; [| split; [| split]]]; try done.
    + simpl. lia.
    + simpl. rewrite network_calls_cons. simpl. lia.
Qed.

End FetcherAnyInput.

(** X8. However many entries the provider sends and whatever they hold, a
    call of the fetcher that returns gives at most [page_size] records (one,
    for a page size below one), and with a credential at least one. *)
Theorem fetch_headlines_length (cfg : config) (ext : extern) (country : string)
    (page_size : Z) (w w' : world) (out : list record) :
  fetch_headlines cfg ext country page_size w = (Ret out, w') →
  Z.of_nat (length out) ≤ Z.max 1 page_size
  ∧ (truthy (api_key cfg) = true → (1 ≤ length out)%nat).
Proof.
  intros H.
  destruct (fetch_headlines_ret cfg ext _ _ _ _ _ H) as (_ & _ & Hmax & Hmin & _).
  split; [done |]. intros Hkey. specialize (Hmin Hkey).
  destruct out; [done | simpl; lia].
Qed.

Lemma fetch_headlines_length_witness :
  Z.of_nat (length (Sample.fetched [Sample.story; Sample.other_story])) ≤ Z.max 1 10
  ∧ (1 ≤ length (Sample.fetched [Sample.story; Sample.other_story]))%nat.
Proof.
  destruct (fetch_headlines_length Sample.cfg_key
              (Sample.ext_of [Sample.story; Sample.other_story]) "us" 10 Sample.world0
              (fetch_headlines Sample.cfg_key
                 (Sample.ext_of [Sample.story; Sample.other_story]) "us" 10
                 Sample.world0).2
              (Sample.fetched [Sample.story; Sample.other_story]) eq_refl)
    as [Hmax Hmin].
  split; [exact Hmax | exact (Hmin eq_refl)].
Defined.

(** X9. In what the fetcher returns, the record at position [k] has the
    identifier [k + 1] (so identifiers are distinct), and its [image_url] is
    a string: the placeholder path, or the served path of a file named after
    that identifier. *)
Theorem fetch_headlines_ids_and_images (cfg : config) (ext : extern)
    (country : string) (page_size : Z) (w w' : world) (out : list record) :
  fetch_headlines cfg ext country page_size w = (Ret out, w') →
  sequential_ids out
  ∧ ∀ (k : nat) (a : record), out !! k = Some a → image_url_of (Z.of_nat k + 1) a.
Proof.
  intros H.
  destruct (fetch_headlines_ret cfg ext _ _ _ _ _ H) as (Hids & Himages & _).
  done.
Qed.

Lemma fetch_headlines_ids_and_images_witness :
  sequential_ids (Sample.fetched [Sample.story; Sample.other_story]).
Proof.
  apply (fetch_headlines_ids_and_images Sample.cfg_key
           (Sample.ext_of [Sample.story; Sample.other_story]) "us" 10 Sample.world0
           (fetch_headlines Sample.cfg_key
              (Sample.ext_of [Sample.story; Sample.other_story]) "us" 10
              Sample.world0).2
           (Sample.fetched [Sample.story; Sample.other_story]) eq_refl).
Defined.

(** X10. A call of the fetcher that returns has made at most one request to
    the provider and one request per record returned, so at most
    [1 + max 1 page_size] requests: the entries fetched as headroom are never
    downloaded. *)
Theorem fetch_headlines_request_bound (cfg : config) (ext : extern)
    (country : string) (page_size : Z) (w w' : world) (out : list record) :
  fetch_headlines cfg ext country page_size w = (Ret out, w') →
  (network_calls (trace w') ≤ network_calls (trace w) + 1 + length out)%nat
  ∧ Z.of_nat (network_calls (trace w'))
    ≤ Z.of_nat (network_calls (trace w)) + 1 + Z.max 1 page_size.
Proof.
  intros H.
  destruct (fetch_headlines_ret cfg ext _ _ _ _ _ H) as (_ & _ & Hmax & _ & Hcalls).
  split; [done | lia].
Qed.

Lemma fetch_headlines_request_bound_witness :
  let r := fetch_headlines (Sample.cfg_page_size 1)
             (Sample.ext_of [Sample.pictured (VStr "A") (VStr Sample.image_a);
                             Sample.pictured (VStr "B") (VStr Sample.image_b)])
             "us" 1 Sample.world0 in
  Z.of_nat (network_calls (trace r.2)) ≤ 0 + 1 + Z.max 1 1.
Proof.
  intros r.
  destruct (fetch_headlines_request_bound (Sample.cfg_page_size 1)
              (Sample.ext_of [Sample.pictured (VStr "A") (VStr Sample.image_a);
                              Sample.pictured (VStr "B") (VStr Sample.image_b)])
              "us" 1 Sample.world0 r.2
              (match r.1 with Ret out => out | Exc _ => [] end) eq_refl)
    as [_ Hbound].
  exact Hbound.
Defined.

Section FetcherWellFormed.
Context (ext : extern) (page_size : Z).

(** With fewer well-formed entries than the page holds, the loop takes them
    all. *)
Lemma fetch_loop_short (items : list value) :
  ∀ (out : list record) (i : Z) (w : world),
    forallb well_formed_entry items = true →
    Z.of_nat (length out) + Z.of_nat (length items) < page_size →
    ∃ added w',
      fetch_loop ext page_size i items out w = (Ret (out ++ added), w')
      ∧ length added = length items
      ∧ ∀ (k : nat) (a : record), added !! k = Some a →
          ∃ e, items !! k = Some e
               ∧ a !! "id" = Some (VInt (i + Z.of_nat k))
               ∧ a !! "title" = Some (py_or (entry_get e "title") (VStr "No title"))
               ∧ a !! "source_url" = Some (py_or (entry_get e "url") (VStr "#")).
Proof.
  induction items as [| e items IH]; intros out i w Hwf Hlen.
  { exists [], w. by rewrite app_nil_r. }
  simpl in Hwf. apply andb_true_iff in Hwf as [Hwf_e Hwf_items].
  destruct (build_article_well_formed ext i e w Hwf_e)
    as (art & w1 & Hbuild & Hid & Htitle & Hurl & _).
  simpl. unfold_monad. rewrite Hbuild. rewrite Z.geb_leb.
  simpl in Hlen.
  destruct (page_size <=? Z.of_nat (length (out ++ [art]))) eqn:Hfull.
  { apply Z.leb_le in Hfull. rewrite length_app in Hfull. simpl in Hfull. lia. }
  destruct (IH (out ++ [art]) (i + 1) w1 Hwf_items) as (added & w' & Hloop & Hadded & Hrec).
  { rewrite length_app. simpl. lia. }
  rewrite Hloop, <- app_assoc. exists (art :: added), w'.
  split; [done |]. split; [simpl; lia |].
  intros [| k] a Ha.
  - injection Ha as <-. exists e. by rewrite Z.add_0_r.
  - destruct (Hrec k a Ha) as (e' & He' & Hid' & Hrest).
    exists e'. split; [done |].
    by replace (i + Z.of_nat (S k)) with (i + 1 + Z.of_nat k) by lia.
Qed.

(** An entry that names no image is turned into a record without any
    effect; the record has the placeholder image. *)
Lemma build_article_without_image (i : Z) (a : value) (w : world) :
  well_formed_entry a = true →
  without_image a = true →
  ∃ art,
    build_article ext i a w = (Ret art, w)
    ∧ art !! "image_url" = Some (VStr PLACEHOLDER_IMAGE).
Proof.
  destruct a as [| | | | | m |]; try discriminate.
  intros [_ Hsource]%andb_true_iff Himage.
  unfold without_image, entry_get, dict_get in Himage.
  apply negb_true_iff in Himage.
  unfold build_article, py_get. unfold_monad.
  destruct (parse_datetime_returns ext (default VNone (m !! "publishedAt")) w)
    as [published_at Hparse].
  destruct (m !! "source") as [[| | | | | src |] |]; try discriminate;
    simpl; rewrite Hparse, Himage;
    (eexists; split; [reflexivity | by simplify_map_eq]).
Qed.

Lemma fetch_loop_without_images (items : list value) :
  ∀ (out : list record) (i : Z) (w : world),
    forallb well_formed_entry items = true →
    forallb without_image items = true →
    ∃ added,
      fetch_loop ext page_size i items out w = (Ret (out ++ added), w)
      ∧ Forall (λ a : record, a !! "image_url" = Some (VStr PLACEHOLDER_IMAGE)) added.
Proof.
  induction items as [| e items IH]; intros out i w Hwf Himg.
  { exists []. by rewrite app_nil_r. }
  simpl in Hwf, Himg.
  apply andb_true_iff in Hwf as [Hwf_e Hwf_items].
  apply andb_true_iff in Himg as [Himg_e Himg_items].
  destruct (build_article_without_image i e w Hwf_e Himg_e) as (art & Hbuild & Hart).
  simpl. unfold_monad. rewrite Hbuild.
  destruct (Z.of_nat (length (out ++ [art])) >=? page_size).
  - exists [art]. split; [done |]. by constructor.
  - destruct (IH (out ++ [art]) (i + 1) w Hwf_items Himg_items)
      as (added & Hloop & Hadded).
    rewrite Hloop, <- app_assoc. exists (art :: added). split; [done |].
    by constructor.
Qed.

End FetcherWellFormed.

(** X11. With a credential and a page that holds more than the provider
    sends, a provider answer with between one and [page_size - 1] well-formed
    entries gives exactly one record per entry, in the provider's order, with
    the identifiers 1, 2, ... *)
Theorem fetch_headlines_short_page (cfg : config) (ext : extern) (country : string)
    (page_size : Z) (w : world) (resp : response) (m : gmap string value)
    (entries : list value) :
  truthy (api_key cfg) = true →
  http_get ext (trace w) (headline_request cfg country page_size) = Some resp →
  http_error resp = false →
  resp_json resp = Some (VDict m) →
  m !! "articles" = Some (VList entries) →
  forallb well_formed_entry entries = true →
  entries ≠ [] →
  Z.of_nat (length entries) < page_size →
  ∃ out,
    (fetch_headlines cfg ext country page_size w).1 = Ret out
    ∧ length out = length entries
    ∧ ∀ (k : nat) (a : record), out !! k = Some a →
        ∃ e, entries !! k = Some e
             ∧ a !! "id" = Some (VInt (Z.of_nat k + 1))
             ∧ a !! "title" = Some (py_or (entry_get e "title") (VStr "No title"))
             ∧ a !! "source_url" = Some (py_or (entry_get e "url") (VStr "#")).
Proof.
  intros Hkey Hreply Hstatus Hjson Harticles Hwf Hsome Hlen.
  destruct (fetch_loop_short ext page_size entries [] 1
              (World (files w) (EvGet (headline_request cfg country page_size) :: trace w))
              Hwf)
    as (out & w' & Hloop & Hout & Hrec); [simpl; lia |].
  simpl in Hloop.
  exists out. split; [| split; [done |]].
  - unfold fetch_headlines. rewrite Hkey. simpl.
    unfold_monad. unfold requests_get, raise_for_status, response_json.
    fold (headline_request cfg country page_size).
    rewrite Hreply. simpl. rewrite Hstatus. unfold_monad. rewrite Hjson. simpl.
    unfold_monad. rewrite Harticles. simpl. rewrite Hloop.
    destruct out; [| reflexivity]. by destruct entries.
  - intros k a Ha. destruct (Hrec k a Ha) as (e & He & Hid & Hrest).
    exists e. split; [done |]. by rewrite Z.add_comm.
Qed.

Lemma fetch_headlines_short_page_witness :
  ∃ out,
    (fetch_headlines Sample.cfg_key
       (Sample.ext_of [Sample.story; Sample.other_story]) "us" 10 Sample.world0).1
    = Ret out
    ∧ length out = 2%nat.
Proof.
  destruct (fetch_headlines_short_page Sample.cfg_key
              (Sample.ext_of [Sample.story; Sample.other_story]) "us" 10 Sample.world0
              (Response 200 "" ""
                 (Some (Sample.provider_json [Sample.story; Sample.other_story])))
              (<["articles" := VList [Sample.story; Sample.other_story]]> ∅)
              [Sample.story; Sample.other_story])
    as (out & Hout & Hlen & _); try reflexivity; try discriminate; try (simpl; lia).
  exists out. split; [exact Hout | exact Hlen].
Defined.

(** X12. When no entry of the provider names an image, the fetcher's only
    effect is its one request to the provider: no image is requested, no file
    is written, and every record returned has the placeholder image. *)
Theorem fetch_headlines_without_images (cfg : config) (ext : extern)
    (country : string) (page_size : Z) (w : world) (resp : response)
    (m : gmap string value) (entries : list value) :
  truthy (api_key cfg) = true →
  http_get ext (trace w) (headline_request cfg country page_size) = Some resp →
  http_error resp = false →
  resp_json resp = Some (VDict m) →
  m !! "articles" = Some (VList entries) →
  forallb well_formed_entry entries = true →
  forallb without_image entries = true →
  ∃ out,
    fetch_headlines cfg ext country page_size w
    = (Ret out,
       World (files w) (EvGet (headline_request cfg country page_size) :: trace w))
    ∧ Forall (λ a : record, a !! "image_url" = Some (VStr PLACEHOLDER_IMAGE)) out.
Proof.
  intros Hkey Hreply Hstatus Hjson Harticles Hwf Himg.
  destruct (fetch_loop_without_images ext page_size entries [] 1
              (World (files w) (EvGet (headline_request cfg country page_size) :: trace w))
              Hwf Himg)
    as (out & Hloop & Hout).
  simpl in Hloop.
  exists (match out with [] => [placeholder_article] | _ => out end). split.
  - unfold fetch_headlines. rewrite Hkey. simpl.
    unfold_monad. unfold requests_get, raise_for_status, response_json.
    fold (headline_request cfg country page_size).
    rewrite Hreply. simpl. rewrite Hstatus. unfold_monad. rewrite Hjson. simpl.
    unfold_monad. rewrite Harticles. simpl. rewrite Hloop.
    by destruct out.
  - destruct out; [| done]. by constructor.
Qed.

Lemma fetch_headlines_without_images_witness :
  ∃ out,
    fetch_headlines Sample.cfg_key (Sample.ext_of [Sample.story]) "us" 10 Sample.world0
    = (Ret out, World ∅ [EvGet (headline_request Sample.cfg_key "us" 10)]).
Proof.
  destruct (fetch_headlines_without_images Sample.cfg_key
              (Sample.ext_of [Sample.story]) "us" 10 Sample.world0
              (Response 200 "" "" (Some (Sample.provider_json [Sample.story])))
              (<["articles" := VList [Sample.story]]> ∅)
              [Sample.story])
    as (out & Hout & _); try reflexivity.
  exists out. exact Hout.
Defined.

(** X13. A provider body that decodes to something else than an object (an
    array, a string, a number) is not caught by the [try] block of the
    fetcher: [data.get] raises [AttributeError], the home-page request fails
    with it after the one request to the provider, and the cache stays
    empty. *)
Theorem index_body_not_an_object (cfg : config) (ext : extern) (s : app_state)
    (resp : response) (data : value) :
  cached_articles s = [] →
  truthy (api_key cfg) = true →
  http_get ext (trace (app_world s))
    (headline_request cfg (COUNTRY cfg) (PAGE_SIZE cfg)) = Some resp →
  http_error resp = false →
  resp_json resp = Some data →
  (∀ m, data ≠ VDict m) →
  index cfg ext s
  = (Exc AttributeError,
     AppState []
       (World (files (app_world s))
          (EvGet (headline_request cfg (COUNTRY cfg) (PAGE_SIZE cfg))
             :: trace (app_world s)))).
Proof.
  intros Hempty Hkey Hreply Hstatus Hjson Hobject.
  unfold index. rewrite Hempty. simpl.
  unfold fetch_headlines. rewrite Hkey. simpl.
  unfold_monad. unfold requests_get, raise_for_status, response_json.
  fold (headline_request cfg (COUNTRY cfg) (PAGE_SIZE cfg)).
  rewrite Hreply. simpl. rewrite Hstatus. unfold_monad. rewrite Hjson. simpl.
  destruct data; try reflexivity. by destruct (Hobject m).
Qed.

Lemma index_body_not_an_object_witness :
  index Sample.cfg_key Sample.ext_array (initial_state Sample.world0)
  = (Exc AttributeError,
     AppState [] (World ∅ [EvGet (headline_request Sample.cfg_key "us" 10)])).
Proof.
  apply (index_body_not_an_object Sample.cfg_key Sample.ext_array
           (initial_state Sample.world0) (Response 200 "" "" (Some (VList [])))
           (VList [])); first [reflexivity | discriminate].
Defined.

(** ** The enricher *)

(** X14. An enrichment that succeeds: for a record whose [source_url] is a
    string other than the empty one and the sentinel, an answer with status
    200 and a page the extractor parses, the enricher makes that one request
    (browser-like [User-Agent], the configured timeout), and sets
    [full_text] to the first non-empty of the extracted text, the record's
    content and its description; in particular to the extracted text when
    that is not empty. *)
Theorem enrich_sets_full_text (cfg : config) (ext : extern) (a : record)
    (w : world) (u text : string) (resp : response) :
  a !! "source_url" = Some (VStr u) →
  u ≠ "" →
  u ≠ "#" →
  http_get ext (trace w)
    (Request u [] (REQUEST_TIMEOUT cfg) [("User-Agent", "Mozilla/5.0")]) = Some resp →
  status_code resp = 200 →
  newspaper_parse ext u (resp_text resp) = Some text →
  enrich_article_with_newspaper cfg ext a w
  = (Ret (<["full_text" :=
             py_or (VStr text)
               (py_or (dict_get a "content") (dict_get a "description"))]> a),
     World (files w)
       (EvGet (Request u [] (REQUEST_TIMEOUT cfg) [("User-Agent", "Mozilla/5.0")])
          :: trace w))
  ∧ (text ≠ "" →
     py_or (VStr text) (py_or (dict_get a "content") (dict_get a "description"))
     = VStr text).
Proof.
  intros Hurl Hne Hsentinel Hget Hstatus Hparse. split.
  - unfold enrich_article_with_newspaper, dict_get. rewrite Hurl. simpl.
    destruct (String.eqb_spec u ""); [done |].
    destruct (String.eqb_spec u "#"); [done |]. simpl.
    unfold_monad. unfold requests_get. rewrite Hget. simpl.
    rewrite Hstatus. simpl. by rewrite Hparse.
  - intros Htext. unfold py_or. by rewrite (truthy_str text Htext).
Qed.

Lemma enrich_sets_full_text_witness :
  enrich_article_with_newspaper Sample.cfg_key (Sample.ext_of [Sample.story])
    Sample.listed_record
    (World ∅ [EvGet Sample.story_request; EvGet Sample.story_request])
  = (Ret (<["full_text" := VStr "Body"]> Sample.listed_record),
     World ∅ [EvGet Sample.story_request; EvGet Sample.story_request;
              EvGet Sample.story_request]).
Proof.
  refine (proj1 (enrich_sets_full_text Sample.cfg_key (Sample.ext_of [Sample.story])
                   Sample.listed_record
                   (World ∅ [EvGet Sample.story_request; EvGet Sample.story_request])
                   "https://news.example/story" "Body"
                   (Response 200 "bytes" "late" None) _ _ _ _ _ _));
    first [reflexivity | discriminate].
Defined.

(** X15. An enrichment that fails: when the request gets no answer, or an
    answer whose status is not 200, or a page the extractor cannot parse, the
    record is left exactly as it was; the one request is all that happened. *)
Theorem enrich_failure_keeps_record (cfg : config) (ext : extern) (a : record)
    (w : world) (u : string) :
  a !! "source_url" = Some (VStr u) →
  u ≠ "" →
  u ≠ "#" →
  match http_get ext (trace w)
          (Request u [] (REQUEST_TIMEOUT cfg) [("User-Agent", "Mozilla/5.0")]) with
  | None => True
  | Some resp =>
      status_code resp ≠ 200 ∨ newspaper_parse ext u (resp_text resp) = None
  end →
  enrich_article_with_newspaper cfg ext a w
  = (Ret a,
     World (files w)
       (EvGet (Request u [] (REQUEST_TIMEOUT cfg) [("User-Agent", "Mozilla/5.0")])
          :: trace w)).
Proof.
  intros Hurl Hne Hsentinel Hfail.
  unfold enrich_article_with_newspaper, dict_get. rewrite Hurl. simpl.
  destruct (String.eqb_spec u ""); [done |].
  destruct (String.eqb_spec u "#"); [done |]. simpl.
  unfold_monad. unfold requests_get.
  destruct (http_get ext (trace w) _) as [resp |]; simpl; [| done].
  destruct (Z.eqb_spec (status_code resp) 200) as [Hok | Hbad]; simpl; [| done].
  destruct Hfail as [Hstatus | Hparse]; [done |]. by rewrite Hparse.
Qed.

Lemma enrich_failure_keeps_record_witness :
  enrich_article_with_newspaper Sample.cfg_key Sample.ext_404 Sample.listed_record
    Sample.world0
  = (Ret Sample.listed_record, World ∅ [EvGet Sample.story_request]).
Proof.
  apply (enrich_failure_keeps_record Sample.cfg_key Sample.ext_404
           Sample.listed_record Sample.world0 "https://news.example/story");
    first [reflexivity | discriminate | (left; discriminate)].
Defined.

(** X16. Whatever the record and the outside, the enricher never raises,
    changes no field of the record other than [full_text], writes no file,
    and makes at most one request. *)
Theorem enrich_effects (cfg : config) (ext : extern) (a : record) (w : world) :
  let r := enrich_article_with_newspaper cfg ext a w in
  (∃ a', r.1 = Ret a' ∧ ∀ key, key ≠ "full_text" → a' !! key = a !! key)
  ∧ files r.2 = files w
  ∧ (network_calls (trace r.2) ≤ network_calls (trace w) + 1)%nat.
Proof.
  unfold enrich_article_with_newspaper.
  destruct (_ || _); simpl; [split; [by eexists | split; [done | lia]] |].
  unfold_monad. unfold requests_get_url, newspaper_text, requests_get.
  destruct (dict_get a "source_url"); simpl;
    try (split; [by eexists | split; [done | lia]]).
  destruct (http_get ext _ _) as [resp |]; simpl;
    [| split; [by eexists | split; [done | rewrite network_calls_cons; simpl; lia]]].
  destruct (negb (status_code resp =? 200)); simpl;
    [split; [by eexists | split; [done | rewrite network_calls_cons; simpl; lia]] |].
  destruct (newspaper_parse ext s (resp_text resp)); simpl;
    (split; [| split; [done | rewrite network_calls_cons; simpl; lia]]).
  - eexists. split; [reflexivity |]. intros key Hkey. by rewrite lookup_insert_ne.
  - by eexists.
Qed.

(** ** The detail route and the cache over time *)

Section Detail.
Context (cfg : config) (ext : extern).

(** The search stops at the first record with the identifier. *)
Lemma find_article_first (article_id : Z) (l : list record) :
  ∀ (k0 k : nat) (art : record) (v : value),
    l !! k = Some art →
    art !! "id" = Some v →
    py_eq_int v article_id = true →
    no_record_with_id article_id (take k l) = true →
    find_article k0 l article_id = Ret (Some ((k0 + k)%nat, art)).
Proof.
  induction l as [| x l IH]; intros k0 k art v Hk Hid Heq Hbefore; [done |].
  destruct k as [| k]; simpl in *.
  - injection Hk as ->. rewrite Hid, Heq. by rewrite Nat.add_0_r.
  - apply andb_true_iff in Hbefore as [Hx Hrest].
    destruct (x !! "id") as [vx |]; [| done].
    apply negb_true_iff in Hx. rewrite Hx.
    rewrite (IH (S k0) k art v Hk Hid Heq Hrest). do 3 f_equal. lia.
Qed.

(** A record with a field is not the empty [dict]. *)
Lemma truthy_record (a : record) (key : string) (v : value) :
  a !! key = Some v → truthy (VDict a) = true.
Proof.
  intros Hkey. simpl. apply negb_true_iff, Nat.eqb_neq.
  apply map_size_non_empty_iff. intros ->. by rewrite lookup_empty in Hkey.
Qed.

Lemma no_record_with_other_ids (article_id : Z) (l : list record) :
  Forall (λ a : record, ∃ n, a !! "id" = Some (VInt n) ∧ n ≠ article_id) l →
  no_record_with_id article_id l = true.
Proof.
  induction 1 as [| a l (n & Hn & Hne) _ IH]; simpl; [done |].
  rewrite Hn, IH. simpl. rewrite andb_true_r.
  by apply negb_true_iff, Z.eqb_neq.
Qed.

(** Under sequential identifiers, the identifier [i] is found at position
    [i - 1] when there is one, and nowhere otherwise. *)
Lemma find_article_sequential (cache : list record) (article_id : Z) :
  sequential_ids cache →
  (1 ≤ article_id ≤ Z.of_nat (length cache) →
   ∃ art, cache !! Z.to_nat (article_id - 1) = Some art
          ∧ art !! "id" = Some (VInt article_id)
          ∧ find_article 0 cache article_id
            = Ret (Some (Z.to_nat (article_id - 1), art)))
  ∧ (¬ (1 ≤ article_id ≤ Z.of_nat (length cache)) →
     no_record_with_id article_id cache = true).
Proof.
  intros Hseq. split.
  - intros Hrange.
    destruct (lookup_lt_is_Some_2 cache (Z.to_nat (article_id - 1))) as [art Hart];
      [lia |].
    pose proof (Hseq _ _ Hart) as Hid.
    replace (Z.of_nat (Z.to_nat (article_id - 1)) + 1) with article_id in Hid by lia.
    exists art. split; [done |]. split; [done |].
    apply (find_article_first article_id cache 0 (Z.to_nat (article_id - 1)) art
             (VInt article_id) Hart Hid); [simpl; apply Z.eqb_refl |].
    apply no_record_with_other_ids. apply Forall_lookup.
    intros j a Hj. apply lookup_take_Some in Hj as [Hj Hlt].
    exists (Z.of_nat j + 1). split; [by apply Hseq | lia].
  - intros Hout. apply no_record_with_other_ids. apply Forall_lookup.
    intros j a Hj. exists (Z.of_nat j + 1). split; [by apply Hseq |].
    apply lookup_lt_Some in Hj. lia.
Qed.

(** One request keeps the identifiers sequential. *)
Lemma handle_sequential_ids (r : http_request) (s : app_state) :
  sequential_ids (cached_articles s) →
  sequential_ids (cached_articles (handle cfg ext r s).2).
Proof.
  intros Hseq. destruct r as [| article_id]; simpl.
  - unfold index.
    destruct (negb (truthy (VList (VDict <$> cached_articles s)))); [| done].
    destruct (fetch_headlines cfg ext (COUNTRY cfg) (PAGE_SIZE cfg) (app_world s))
      as [[out | e] w'] eqn:Hfetch; simpl; [| done].
    by destruct (fetch_headlines_ret cfg ext _ _ _ _ _ Hfetch) as (Hids & _).
  - destruct (article_frame cfg ext article_id s) as (Hlen & Hkeys & _).
    intros k a' Hk.
    assert (Hlt : (k < length (cached_articles s))%nat).
    { rewrite <- Hlen. by eapply lookup_lt_Some. }
    destruct (lookup_lt_is_Some_2 _ _ Hlt) as [a Ha].
    specialize (Hkeys k "id"). unfold field_at in Hkeys.
    rewrite Hk, Ha in Hkeys. simpl in Hkeys.
    rewrite Hkeys by done. by apply Hseq.
Qed.

Lemma run_sequential_ids (rs : list http_request) :
  ∀ s : app_state,
    sequential_ids (cached_articles s) →
    sequential_ids (cached_articles (run cfg ext rs s)).
Proof.
  induction rs as [| r rs IH]; intros s Hseq; simpl; [done |].
  apply IH. by apply handle_sequential_ids.
Qed.

End Detail.

(** X17. A detail request for a record whose [full_text] is populated
    renders that record and does nothing else: no request goes out, and the
    cache and the world are what they were. The record is the first of the
    cache with the identifier. *)
Theorem article_populated_is_idle (cfg : config) (ext : extern) (article_id : Z)
    (s : app_state) (k : nat) (art : record) (v : value) :
  cached_articles s !! k = Some art →
  art !! "id" = Some v →
  py_eq_int v article_id = true →
  no_record_with_id article_id (take k (cached_articles s)) = true →
  truthy (dict_get art "full_text") = true →
  article cfg ext article_id s = (Ret (ArticlePage art), s).
Proof.
  intros Hk Hid Heq Hbefore Hfull. unfold article.
  rewrite (find_article_first article_id _ 0 k art v Hk Hid Heq Hbefore).
  rewrite (truthy_record art "id" v Hid). simpl. by rewrite Hfull.
Qed.

Lemma article_populated_is_idle_witness :
  article Sample.cfg_key (Sample.ext_of [Sample.story]) 1 Sample.enriched
  = (Ret (ArticlePage Sample.enriched_record), Sample.enriched).
Proof.
  apply (article_populated_is_idle Sample.cfg_key (Sample.ext_of [Sample.story]) 1
           Sample.enriched 0 Sample.enriched_record (VInt 1)); reflexivity.
Defined.

(** X18. A detail request for a record whose [full_text] is missing or empty
    runs the enricher on it; the page rendered shows the record as the
    enricher left it, and the cache holds that same record at the same
    position: the route works on the cached record itself. The other
    positions of the cache are unchanged. *)
Theorem article_enriches_in_place (cfg : config) (ext : extern) (article_id : Z)
    (s : app_state) (k : nat) (art : record) (v : value) :
  cached_articles s !! k = Some art →
  art !! "id" = Some v →
  py_eq_int v article_id = true →
  no_record_with_id article_id (take k (cached_articles s)) = true →
  truthy (dict_get art "full_text") = false →
  ∃ art',
    (enrich_article_with_newspaper cfg ext art (app_world s)).1 = Ret art'
    ∧ (article cfg ext article_id s).1 = Ret (ArticlePage art')
    ∧ cached_articles (article cfg ext article_id s).2 !! k = Some art'
    ∧ (∀ j, j ≠ k →
         cached_articles (article cfg ext article_id s).2 !! j
         = cached_articles s !! j)
    ∧ app_world (article cfg ext article_id s).2
      = (enrich_article_with_newspaper cfg ext art (app_world s)).2.
Proof.
  intros Hk Hid Heq Hbefore Hempty. unfold article.
  rewrite (find_article_first article_id _ 0 k art v Hk Hid Heq Hbefore).
  rewrite (truthy_record art "id" v Hid). simpl. rewrite Hempty. simpl.
  destruct (enrich_changes_full_text_only cfg ext art (app_world s))
    as (art' & w' & Henrich & _).
  rewrite Henrich. simpl. exists art'.
  split; [done |]. split; [done |]. split; [| split; [| done]].
  - apply list_lookup_insert_eq. by eapply lookup_lt_Some.
  - intros j Hj. by apply list_lookup_insert_ne.
Qed.

Lemma article_enriches_in_place_witness :
  ∃ art',
    (article Sample.cfg_key (Sample.ext_of [Sample.story]) 1 Sample.listed).1
    = Ret (ArticlePage art')
    ∧ cached_articles
        (article Sample.cfg_key (Sample.ext_of [Sample.story]) 1 Sample.listed).2
        !! 0%nat = Some art'.
Proof.
  destruct (article_enriches_in_place Sample.cfg_key (Sample.ext_of [Sample.story]) 1
              Sample.listed 0 Sample.listed_record (VInt 1)
              eq_refl eq_refl eq_refl eq_refl eq_refl)
    as (art' & _ & Hpage & Hcache & _).
  exists art'. split; [exact Hpage | exact Hcache].
Defined.

(** X19. In every state the process reaches from its start, whatever the
    requests and whatever the outside answers, the record at position [k] of
    the cache has the identifier [k + 1]: identifiers are distinct and stay
    what they are. *)
Theorem reachable_sequential_ids (cfg : config) (ext : extern)
    (rs : list http_request) (w : world) :
  sequential_ids (cached_articles (run cfg ext rs (initial_state w))).
Proof.
  apply run_sequential_ids. intros k a Hk. discriminate Hk.
Qed.

(** X20. With sequential identifiers (as in every reachable state), a detail
    request for an identifier between 1 and the size of the cache renders a
    record with that identifier and never fails; for any other identifier it
    is answered not-found and the state is unchanged. *)
Theorem article_found_iff_in_range (cfg : config) (ext : extern) (article_id : Z)
    (s : app_state) :
  sequential_ids (cached_articles s) →
  (1 ≤ article_id ≤ Z.of_nat (length (cached_articles s)) →
   ∃ art, (article cfg ext article_id s).1 = Ret (ArticlePage art)
          ∧ art !! "id" = Some (VInt article_id))
  ∧ (¬ (1 ≤ article_id ≤ Z.of_nat (length (cached_articles s))) →
     article cfg ext article_id s = (Exc NotFound, s)).
Proof.
  intros Hseq.
  destruct (find_article_sequential (cached_articles s) article_id Hseq)
    as [Hin Hout].
  split.
  - intros Hrange. destruct (Hin Hrange) as (art & Hart & Hid & Hfind).
    unfold article. rewrite Hfind.
    rewrite (truthy_record art "id" _ Hid). simpl.
    destruct (negb (truthy (dict_get art "full_text"))); [| by exists art].
    destruct (enrich_changes_full_text_only cfg ext art (app_world s))
      as (art' & w' & Henrich & Hkeys).
    rewrite Henrich. simpl. exists art'. split; [done |].
    by rewrite Hkeys.
  - intros Hrange. unfold article.
    by rewrite (find_article_absent _ _ _ (Hout Hrange)).
Qed.

Lemma article_found_iff_in_range_witness :
  (∃ art, (article Sample.cfg_key (Sample.ext_of [Sample.story]) 1 Sample.listed).1
          = Ret (ArticlePage art)
          ∧ art !! "id" = Some (VInt 1))
  ∧ article Sample.cfg_key (Sample.ext_of [Sample.story]) 2 Sample.listed
    = (Exc NotFound, Sample.listed).
Proof.
  assert (Hseq : sequential_ids (cached_articles Sample.listed)).
  { intros [| k] a Ha; [| discriminate Ha].
    injection Ha as <-. reflexivity. }
  destruct (article_found_iff_in_range Sample.cfg_key (Sample.ext_of [Sample.story])
              1 Sample.listed Hseq) as [Hin _].
  destruct (article_found_iff_in_range Sample.cfg_key (Sample.ext_of [Sample.story])
              2 Sample.listed Hseq) as [_ Hout].
  split.
  - apply Hin. vm_compute. split; discriminate.
  - apply Hout. vm_compute. intros [_ H]. by apply H.
Defined.

(** X21. Once the cache holds a record, home-page requests have no effect at
    all: each renders the cache as it is, and after any number of them the
    state (cache, files, trace) is the very same. *)
Theorem index_cached_is_idle (cfg : config) (ext : extern) (s : app_state)
    (n : nat) :
  cached_articles s ≠ [] →
  index cfg ext s = (Ret (IndexPage (cached_articles s)), s)
  ∧ run cfg ext (replicate n GetIndex) s = s.
Proof.
  intros Hcache. split; [by apply index_cached |].
  induction n as [| n IH]; simpl; [done |].
  by rewrite index_cached.
Qed.

Lemma index_cached_is_idle_witness :
  run Sample.cfg_key (Sample.ext_of [Sample.story]) (replicate 3 GetIndex)
    Sample.listed
  = Sample.listed.
Proof.
  apply (index_cached_is_idle Sample.cfg_key (Sample.ext_of [Sample.story])
           Sample.listed 3).
  discriminate.
Defined.

(** ** The timestamp parser and the template filter *)

(** X22. The fallback of the parser: a non-empty string the ISO parser
    refuses (after the [Z] normalisation) and the pattern
    [%Y-%m-%dT%H:%M:%S] accepts parses to what the pattern gives, with no
    effect on the world. *)
Theorem parse_datetime_fallback (ext : extern) (s : string) (d : datetime)
    (w : world) :
  s ≠ "" →
  fromisoformat ext (str_replace "Z" "+00:00" s) = None →
  strptime ext s "%Y-%m-%dT%H:%M:%S" = Some d →
  parse_datetime ext (VStr s) w = (Ret (VDatetime d), w).
Proof.
  intros Hs Hiso Hpattern. unfold parse_datetime.
  rewrite (truthy_str s Hs). simpl.
  unfold_monad. unfold datetime_fromisoformat.
  by rewrite Hiso, Hpattern.
Qed.

Lemma parse_datetime_fallback_witness :
  parse_datetime Sample.ext_fallback (VStr "2024-1-2T3:4:5") Sample.world0
  = (Ret (VDatetime (Datetime 2024 1 2 3 4 5 0 None)), Sample.world0).
Proof.
  apply parse_datetime_fallback; first [discriminate | reflexivity].
Defined.

(** X23. A [publishedAt] that is not a string (a number, a list, an object,
    [null]) parses to [None]: the [AttributeError] of [val.replace] and the
    [TypeError] of [strptime] are both swallowed. *)
Theorem parse_datetime_not_a_string (ext : extern) (val : value) (w : world) :
  (∀ s, val ≠ VStr s) →
  parse_datetime ext val w = (Ret VNone, w).
Proof.
  intros Hstr. unfold parse_datetime.
  destruct (truthy val); simpl; [| done].
  destruct val; try reflexivity. by destruct (Hstr s).
Qed.

Lemma parse_datetime_not_a_string_witness :
  parse_datetime Sample.ext_fallback (VInt 1700000000) Sample.world0
  = (Ret VNone, Sample.world0).
Proof.
  apply parse_datetime_not_a_string. discriminate.
Defined.

(** X24. The filter [datetimeformat] never raises and has no effect: a falsy
    value gives ["Unknown"]; a datetime gives what [strftime] gives, and
    [str(value)] when [strftime] raises; any other truthy value gives
    [str(value)]. *)
Theorem datetimeformat_total (strftime : datetime → string → option string)
    (py_str : value → string) (val : value) (fmt : string) (w : world) :
  ∃ s,
    datetimeformat strftime py_str val fmt w = (Ret s, w)
    ∧ (truthy val = false → s = "Unknown")
    ∧ (∀ d out, val = VDatetime d → strftime d fmt = Some out → s = out)
    ∧ (∀ d, val = VDatetime d → strftime d fmt = None → s = py_str val)
    ∧ (truthy val = true → (∀ d, val ≠ VDatetime d) → s = py_str val).
Proof.
  unfold datetimeformat, value_strftime.
  assert (Hdone : ∀ s : string,
            (truthy val = false → s = "Unknown") →
            (∀ d, val = VDatetime d → strftime d fmt = Some s ∨ (strftime d fmt = None ∧ s = py_str val)) →
            (truthy val = true → (∀ d, val ≠ VDatetime d) → s = py_str val) →
            (truthy val = false → s = "Unknown")
            ∧ (∀ d out, val = VDatetime d → strftime d fmt = Some out → s = out)
            ∧ (∀ d, val = VDatetime d → strftime d fmt = None → s = py_str val)
            ∧ (truthy val = true → (∀ d, val ≠ VDatetime d) → s = py_str val)).
  { intros s Hfalsy Hdate Hother. repeat split; try done.
    - intros d out Hd Hout. destruct (Hdate d Hd) as [H | [H _]]; congruence.
    - intros d Hd Hnone. destruct (Hdate d Hd) as [H | [_ H]]; congruence. }
  destruct (truthy val) eqn:Htruthy; simpl.
  - destruct val as [| | | | | | d]; unfold_monad; simpl;
      try (eexists; split; [reflexivity |]; apply Hdone; done).
    destruct (strftime d fmt) as [out |] eqn:Hfmt; simpl;
      (eexists; split; [reflexivity |]; apply Hdone; [done | | ]).
    + intros d' Hd. injection Hd as <-. by left.
    + intros _ Hnot. by destruct (Hnot d).
    + intros d' Hd. injection Hd as <-. by right.
    + intros _ Hnot. by destruct (Hnot d).
  - eexists; split; [reflexivity |]. apply Hdone; [done | | done].
    intros d ->. discriminate Htruthy.
Qed.

(** ** File names and served paths *)

Section Names.

Lemma occurs_app (c : ascii) (s t : string) :
  occurs c (s +:+ t) = occurs c s || occurs c t.
Proof.
  induction s as [| x s IH]; [reflexivity |].
  rewrite append_cons. simpl. by rewrite IH, orb_assoc.
Qed.

Lemma occurs_str_replace (c : ascii) (new s : string) :
  occurs c new = false → occurs c (str_replace c new s) = false.
Proof.
  intros Hnew. induction s as [| x s IH]; simpl; [reflexivity |].
  destruct (Ascii.eqb x c) eqn:Hx.
  - by rewrite occurs_app, Hnew, IH.
  - simpl. by rewrite Hx, IH.
Qed.

(** A split gives at least one piece, and more when the separator occurs. *)
Lemma str_split_shape (c : ascii) (s : string) :
  ∃ w ws, str_split c s = w :: ws ∧ (occurs c s = true → ws ≠ []).
Proof.
  induction s as [| x s (w & ws & Hsplit & Hmore)]; simpl.
  { by exists "", []. }
  rewrite Hsplit. destruct (Ascii.eqb x c); simpl.
  - by exists "", (w :: ws).
  - by exists (String x w), ws.
Qed.

Lemma str_split_absent (c : ascii) (s : string) :
  occurs c s = false → str_split c s = [s].
Proof.
  induction s as [| x s IH]; simpl; [done |].
  destruct (Ascii.eqb x c); simpl; [discriminate |].
  intros Hs. by rewrite (IH Hs).
Qed.

(** The last piece is what follows the last separator. *)
Lemma last_segment_after (c : ascii) (base rest : string) :
  occurs c rest = false →
  last_segment (str_split c (base +:+ String c rest)) = rest.
Proof.
  intros Hrest. induction base as [| x base IH].
  - change ("" +:+ String c rest) with (String c rest). simpl.
    rewrite Ascii.eqb_refl, (str_split_absent c rest Hrest). reflexivity.
  - rewrite append_cons. simpl.
    destruct (str_split_shape c (base +:+ String c rest)) as (w & ws & Hsplit & Hmore).
    assert (Hws : ws ≠ []).
    { apply Hmore. rewrite occurs_app. simpl. rewrite Ascii.eqb_refl.
      by rewrite orb_true_r. }
    rewrite Hsplit in *. unfold last_segment in *.
    destruct (Ascii.eqb x c); simpl in *; [done |].
    by destruct ws.
Qed.

(** The first piece is what precedes the first separator. *)
Lemma first_segment_before (c : ascii) (s rest : string) :
  occurs c s = false →
  first_segment (str_split c (s +:+ String c rest)) = s.
Proof.
  induction s as [| x s IH]; intros Hs.
  - change ("" +:+ String c rest) with (String c rest). simpl.
    by rewrite Ascii.eqb_refl.
  - rewrite append_cons. simpl in *.
    destruct (Ascii.eqb x c); [discriminate |].
    specialize (IH Hs). unfold first_segment in *.
    destruct (str_split c (s +:+ String c rest)); simpl in *; by subst.
Qed.

End Names.

(** X25. The path the mirror hands to the templates holds no backslash,
    whatever the file name: every backslash is turned into a slash. *)
Theorem served_path_no_backslash (filename : string) :
  occurs backslash (served_path filename) = false.
Proof.
  unfold served_path.
  change ("/" +:+ str_replace backslash "/" filename)
    with (String "/" (str_replace backslash "/" filename)).
  simpl. by apply occurs_str_replace.
Qed.

(** X26. How the extension is read off a URL: for a URL that ends in a dot,
    an extension without dot or question mark, and possibly a question mark
    and a query without dot, the mirror keeps that extension when it is, up
    to case, one of the four image extensions, and takes [jpg] otherwise. *)
Theorem derive_ext_of_url (base ext query : string) :
  occurs "." ext = false →
  occurs "?" ext = false →
  occurs "." query = false →
  let expected :=
    if bool_decide (str_lower ext ∈ image_extensions) then ext else "jpg" in
  derive_ext (base +:+ "." +:+ ext) = expected
  ∧ derive_ext (base +:+ "." +:+ ext +:+ "?" +:+ query) = expected.
Proof.
  intros Hdot Hmark Hquery expected. unfold derive_ext. split.
  - change (base +:+ "." +:+ ext) with (base +:+ String "." ext).
    rewrite (last_segment_after "." base ext Hdot).
    by rewrite (str_split_absent "?" ext Hmark).
  - change (base +:+ "." +:+ ext +:+ "?" +:+ query)
      with (base +:+ String "." (ext +:+ String "?" query)).
    rewrite last_segment_after.
    + by rewrite (first_segment_before "?" ext query Hmark).
    + rewrite occurs_app. simpl. by rewrite Hdot, Hquery.
Qed.

Lemma derive_ext_of_url_witness :
  derive_ext "https://cdn.example/other/b.PNG" = "PNG"
  ∧ derive_ext "https://cdn.example/other/b.PNG?w=640" = "PNG".
Proof.
  apply (derive_ext_of_url "https://cdn.example/other/b" "PNG" "w=640");
    reflexivity.
Defined.

(** ** Overlapping requests *)

Section Overlap.
Context (cfg : config) (ext : extern).

(** The list the fetcher returned is what the cache shows once assigned. *)
Lemma cache_view_alloc (heap out : list record) (w : world) :
  cache_view (Shared (heap ++ out) (seq (length heap) (length out)) w) = out.
Proof.
  unfold cache_view. simpl. apply list_eq. intros i.
  rewrite list_lookup_fmap.
  destruct (decide (i < length out)%nat) as [Hlt | Hge].
  - rewrite lookup_seq_lt by done. simpl.
    rewrite lookup_app_r by lia.
    replace (length heap + i - length heap)%nat with i by lia.
    destruct (lookup_lt_is_Some_2 out i Hlt) as [a Ha]. by rewrite Ha.
  - rewrite lookup_seq_ge by lia. simpl. symmetry. apply lookup_ge_None. lia.
Qed.

(** Writing to the dict at the address of position [k] changes position [k]
    of the cache, and no other. *)
Lemma cache_view_insert (heap : list record) (base n k : nat) (a : record)
    (w w' : world) :
  (k < n)%nat →
  (base + n ≤ length heap)%nat →
  cache_view (Shared (<[(base + k)%nat := a]> heap) (seq base n) w')
  = <[k := a]> (cache_view (Shared heap (seq base n) w)).
Proof.
  intros Hk Hn. unfold cache_view. simpl. apply list_eq. intros i.
  rewrite list_lookup_fmap.
  destruct (decide (i < n)%nat) as [Hlt | Hge].
  - rewrite lookup_seq_lt by done. simpl.
    destruct (decide (i = k)) as [-> | Hne].
    + rewrite list_lookup_insert_eq by lia.
      rewrite list_lookup_insert_eq; [done |].
      rewrite length_fmap, length_seq. lia.
    + rewrite list_lookup_insert_ne by lia.
      rewrite list_lookup_insert_ne by done.
      rewrite list_lookup_fmap, lookup_seq_lt by done. done.
  - rewrite lookup_seq_ge by lia. simpl. symmetry. apply lookup_ge_None.
    rewrite length_insert, length_fmap, length_seq. lia.
Qed.

(** Where the record at position [k] of the cache lives. *)
Lemma cache_view_lookup (s : shared) (k : nat) (art : record) (key : string)
    (v : value) :
  consistent s →
  cache_view s !! k = Some art →
  art !! key = Some v →
  ∃ base n,
    sh_cache s = seq base n ∧ (k < n)%nat ∧ (base + n ≤ length (sh_heap s))%nat
    ∧ sh_cache s !! k = Some (base + k)%nat
    ∧ sh_heap s !! (base + k)%nat = Some art.
Proof.
  intros (base & n & Hcache & Hn) Hk Hkey. exists base, n.
  assert (Hlt : (k < n)%nat).
  { apply lookup_lt_Some in Hk. unfold cache_view in Hk.
    by rewrite length_fmap, Hcache, length_seq in Hk. }
  split; [done |]. split; [done |]. split; [done |].
  unfold cache_view in Hk. rewrite Hcache in *.
  rewrite list_lookup_fmap, lookup_seq_lt in Hk by done. simpl in Hk.
  split; [by rewrite lookup_seq_lt |].
  injection Hk as Hk.
  destruct (sh_heap s !! (base + k)%nat) as [a |]; simpl in Hk; [by subst |].
  subst art. by rewrite lookup_empty in Hkey.
Qed.

(** The record the search returns has an identifier. *)
Lemma find_article_has_id (l : list record) (article_id : Z) :
  ∀ (k0 k : nat) (art : record),
    find_article k0 l article_id = Ret (Some (k, art)) →
    ∃ v, art !! "id" = Some v.
Proof.
  induction l as [| x l IH]; intros k0 k art; simpl; [discriminate |].
  destruct (x !! "id") as [v |] eqn:Hx; [| discriminate].
  destruct (py_eq_int v article_id).
  - intros H. injection H as <- <-. by eexists.
  - apply IH.
Qed.

(** A request served alone by its thread does what its route does: the two
    steps are the route, cut in two. *)
Lemma serve_alone_is_handle (r : http_request) (s : shared) :
  consistent s →
  (serve_alone cfg ext (start r) s).1 = Finished (handle cfg ext r (state_of s)).1
  ∧ state_of (serve_alone cfg ext (start r) s).2 = (handle cfg ext r (state_of s)).2
  ∧ consistent (serve_alone cfg ext (start r) s).2.
Proof.
  intros Hs. unfold serve_alone, start, handle.
  destruct r as [| article_id].
  - unfold index. cbn [thread_step state_of cached_articles app_world].
    destruct (negb (truthy (VList (VDict <$> cache_view s))));
      cbn [thread_step fst snd]; [| done].
    destruct (fetch_headlines cfg ext (COUNTRY cfg) (PAGE_SIZE cfg) (sh_world s))
      as [[out | e] w]; cbn [fst snd]; [| done].
    split; [done |]. split.
    + unfold state_of. cbn [sh_world]. by rewrite cache_view_alloc.
    + exists (length (sh_heap s)), (length out). split; [done |].
      cbn [sh_heap]. rewrite length_app. lia.
  - unfold article. cbn [thread_step state_of cached_articles app_world].
    destruct (find_article 0 (cache_view s) article_id)
      as [[[k art] |] | e] eqn:Hfind; cbn [thread_step fst snd]; try done.
    destruct (negb (truthy (VDict art))) eqn:Hdict; cbn [thread_step fst snd];
      [done |].
    destruct (negb (truthy (dict_get art "full_text")));
      cbn [thread_step fst snd]; [| done].
    destruct (find_article_has_id _ _ _ _ _ Hfind) as [v Hv].
    apply find_article_lookup in Hfind as (j & -> & Hj). simpl in Hj.
    destruct (cache_view_lookup s j art "id" v Hs Hj Hv)
      as (base & n & Hcache & Hlt & Hn & Hloc & Hheap).
    change (0 + j)%nat with j.
    rewrite Hloc. cbn [default from_option id]. rewrite Hheap.
    cbn [default from_option id].
    destruct (enrich_article_with_newspaper cfg ext art (sh_world s))
      as [[art' | e] w]; cbn [fst snd]; [| done].
    split; [done |]. split.
    + unfold state_of. cbn [sh_world sh_cache sh_heap]. rewrite Hcache.
      rewrite (cache_view_insert (sh_heap s) base n j art' (sh_world s) w Hlt Hn).
      f_equal. f_equal. unfold cache_view. by rewrite Hcache.
    + exists base, n. split; [done |]. cbn [sh_heap]. by rewrite length_insert.
Qed.

End Overlap.

Section Races.
Context (cfg : config) (ext : extern).

Lemma run_threads_cons (i : nat) (rest : list nat) (ts : list thread)
    (s : shared) (t : thread) :
  ts !! i = Some t →
  run_threads cfg ext (i :: rest) ts s
  = run_threads cfg ext rest (<[i := (thread_step cfg ext t s).1]> ts)
      (thread_step cfg ext t s).2.
Proof. intros Ht. simpl. by rewrite Ht. Qed.

Lemma step_index_empty (s : shared) :
  sh_cache s = [] → thread_step cfg ext AtIndex s = (AtFetch, s).
Proof.
  intros Hcache. unfold thread_step, cache_view. by rewrite Hcache.
Qed.

(** On a record without [full_text] the first step of a detail request
    leaves the thread about to enrich the dict it found. *)
Lemma step_article_guard (s : shared) (article_id : Z) (k : nat) (art : record)
    (v : value) (loc : nat) :
  cache_view s !! k = Some art →
  sh_cache s !! k = Some loc →
  art !! "id" = Some v →
  py_eq_int v article_id = true →
  no_record_with_id article_id (take k (cache_view s)) = true →
  truthy (dict_get art "full_text") = false →
  thread_step cfg ext (AtArticle article_id) s = (AtEnrich loc, s).
Proof.
  intros Hk Hloc Hid Heq Hbefore Hempty. unfold thread_step.
  rewrite (find_article_first article_id _ 0 k art v Hk Hid Heq Hbefore).
  rewrite (truthy_record art "id" v Hid). cbn [negb Nat.add].
  by rewrite Hempty, Hloc.
Qed.

End Races.

(** X27. Two home-page requests that overlap: when both threads test the
    empty cache before either has fetched, both call the fetcher, so the
    fetcher runs twice; the second thread assigns the cache after the first
    has rendered its page, and the cache ends as the list of the second
    fetch. *)
Theorem overlapping_home_requests_fetch_twice (cfg : config) (ext : extern)
    (s : shared) :
  sh_cache s = [] →
  let r := run_threads cfg ext [0; 1; 0; 1]%nat [AtIndex; AtIndex] s in
  fetch_invocations (trace (sh_world r.2))
  = (2 + fetch_invocations (trace (sh_world s)))%nat
  ∧ ∀ out1 w1 out2 w2,
      fetch_headlines cfg ext (COUNTRY cfg) (PAGE_SIZE cfg) (sh_world s)
      = (Ret out1, w1) →
      fetch_headlines cfg ext (COUNTRY cfg) (PAGE_SIZE cfg) w1 = (Ret out2, w2) →
      r.1 = [Finished (Ret (IndexPage out1)); Finished (Ret (IndexPage out2))]
      ∧ cache_view r.2 = out2
      ∧ sh_world r.2 = w2.
Proof.
  intros Hcache r. unfold r.
  erewrite run_threads_cons by reflexivity.
  rewrite (step_index_empty cfg ext s Hcache). cbn [fst snd].
  change (<[0%nat := AtFetch]> [AtIndex; AtIndex]) with [AtFetch; AtIndex].
  erewrite run_threads_cons by reflexivity.
  rewrite (step_index_empty cfg ext s Hcache). cbn [fst snd].
  change (<[1%nat := AtFetch]> [AtFetch; AtIndex]) with [AtFetch; AtFetch].
  erewrite run_threads_cons by reflexivity.
  cbn [thread_step].
  pose proof (adds_fetch_headlines cfg ext (COUNTRY cfg) (PAGE_SIZE cfg) (sh_world s))
    as Hfirst.
  destruct (fetch_headlines cfg ext (COUNTRY cfg) (PAGE_SIZE cfg) (sh_world s))
    as [r1 w1] eqn:Hfetch1.
  assert (Hsecond := adds_fetch_headlines cfg ext (COUNTRY cfg) (PAGE_SIZE cfg) w1).
  simpl in Hfirst.
  destruct r1 as [out1 | e1]; cbn [fst snd].
  - change (<[0%nat := Finished (Ret (IndexPage out1))]> [AtFetch; AtFetch])
      with [Finished (Ret (IndexPage out1)); AtFetch].
    erewrite run_threads_cons by reflexivity.
    cbn [thread_step sh_world sh_heap sh_cache run_threads].
    destruct (fetch_headlines cfg ext (COUNTRY cfg) (PAGE_SIZE cfg) w1)
      as [r2 w2] eqn:Hfetch2.
    simpl in Hsecond.
    destruct r2 as [out2 | e2]; cbn [fst snd sh_world sh_heap sh_cache];
      (split; [lia |]);
      intros o1 v1 o2 v2 H1 H2; injection H1 as <- <-;
      rewrite Hfetch2 in H2; try discriminate.
    injection H2 as <- <-.
    split; [done |]. split; [apply cache_view_alloc | done].
  - change (<[0%nat := Finished (Exc e1)]> [AtFetch; AtFetch])
      with [Finished (Exc e1 : res page); AtFetch].
    erewrite run_threads_cons by reflexivity.
    cbn [thread_step sh_world sh_heap sh_cache run_threads].
    destruct (fetch_headlines cfg ext (COUNTRY cfg) (PAGE_SIZE cfg) w1)
      as [r2 w2] eqn:Hfetch2.
    simpl in Hsecond.
    destruct r2 as [out2 | e2]; cbn [fst snd sh_world sh_heap sh_cache];
      (split; [lia |]); intros o1 v1 o2 v2 H1 H2; discriminate.
Qed.

Lemma overlapping_home_requests_fetch_twice_witness :
  fetch_invocations
    (trace (sh_world
       (run_threads Sample.cfg_key Sample.ext_fading [0; 1; 0; 1]%nat
          [AtIndex; AtIndex] (Shared [] [] Sample.world0)).2))
  = 2%nat.
Proof.
  apply (overlapping_home_requests_fetch_twice Sample.cfg_key Sample.ext_fading
           (Shared [] [] Sample.world0)).
  reflexivity.
Defined.

(** X28. Two detail requests for the same record that overlap: when both
    threads pass the guard on a missing [full_text] before either has
    enriched, the enricher runs twice on the same dict, the second time on
    the record the first run left; what the second run writes is what the
    cache holds at the end, whether or not the first run had populated
    [full_text]. *)
Theorem overlapping_detail_requests_enrich_twice (cfg : config) (ext : extern)
    (s : shared) (article_id : Z) (k : nat) (art art1 art2 : record) (v : value)
    (w1 w2 : world) :
  consistent s →
  cache_view s !! k = Some art →
  art !! "id" = Some v →
  py_eq_int v article_id = true →
  no_record_with_id article_id (take k (cache_view s)) = true →
  truthy (dict_get art "full_text") = false →
  enrich_article_with_newspaper cfg ext art (sh_world s) = (Ret art1, w1) →
  enrich_article_with_newspaper cfg ext art1 w1 = (Ret art2, w2) →
  let r := run_threads cfg ext [0; 1; 0; 1]%nat
             [AtArticle article_id; AtArticle article_id] s in
  r.1 = [Finished (Ret (ArticlePage art1)); Finished (Ret (ArticlePage art2))]
  ∧ cache_view r.2 !! k = Some art2
  ∧ sh_world r.2 = w2.
Proof.
  intros Hs Hk Hid Heq Hbefore Hempty Hfirst Hsecond r.
  destruct (cache_view_lookup s k art "id" v Hs Hk Hid)
    as (base & n & Hcache & Hlt & Hn & Hloc & Hheap).
  assert (Hguard := step_article_guard cfg ext s article_id k art v (base + k)%nat
                      Hk Hloc Hid Heq Hbefore Hempty).
  unfold r.
  erewrite run_threads_cons by reflexivity.
  rewrite Hguard. cbn [fst snd].
  change (<[0%nat := AtEnrich (base + k)]> [AtArticle article_id; AtArticle article_id])
    with [AtEnrich (base + k)%nat; AtArticle article_id].
  erewrite run_threads_cons by reflexivity.
  rewrite Hguard. cbn [fst snd].
  change (<[1%nat := AtEnrich (base + k)]>
            [AtEnrich (base + k)%nat; AtArticle article_id])
    with [AtEnrich (base + k)%nat; AtEnrich (base + k)%nat].
  erewrite run_threads_cons by reflexivity.
  cbn [thread_step]. rewrite Hheap. cbn [default from_option id].
  rewrite Hfirst. cbn [fst snd].
  change (<[0%nat := Finished (Ret (ArticlePage art1))]>
            [AtEnrich (base + k)%nat; AtEnrich (base + k)%nat])
    with [Finished (Ret (ArticlePage art1)); AtEnrich (base + k)%nat].
  erewrite run_threads_cons by reflexivity.
  cbn [thread_step sh_heap sh_world sh_cache run_threads].
  rewrite list_lookup_insert_eq by lia. cbn [default from_option id].
  rewrite Hsecond. cbn [fst snd].
  split; [done |]. split; [| done].
  unfold cache_view. cbn [sh_heap sh_cache].
  rewrite list_lookup_fmap, Hloc. cbn [fmap option_fmap option_map].
  rewrite list_lookup_insert_eq; [done |]. rewrite length_insert. lia.
Qed.

Lemma overlapping_detail_requests_enrich_twice_witness :
  let r := run_threads Sample.cfg_key Sample.ext_fading [0; 1; 0; 1]%nat
             [AtArticle 1; AtArticle 1] Sample.listed_shared in
  Sample.record_of Sample.enriched_once.1 !! "full_text" = Some (VStr "Body")
  ∧ cache_view r.2 !! 0%nat = Some (Sample.record_of Sample.enriched_twice.1)
  ∧ Sample.record_of Sample.enriched_twice.1 !! "full_text" = Some (VStr "").
Proof.
  intros r. split; [reflexivity |]. split; [| reflexivity].
  refine (proj1 (proj2
            (overlapping_detail_requests_enrich_twice Sample.cfg_key Sample.ext_fading
               Sample.listed_shared 1 0 Sample.shared_record
               (Sample.record_of Sample.enriched_once.1)
               (Sample.record_of Sample.enriched_twice.1) (VInt 1)
               Sample.enriched_once.2 Sample.enriched_twice.2
               _ _ _ _ _ _ _ _))); try reflexivity.
  exists 0%nat, 1%nat. split; [reflexivity | vm_compute; lia].
Defined.
